(** * realestate-crm: session guard and record managers

    A shallow embedding of the dashboard code:
    - [hooks/useAuth] (the session provider) and [AuthGuard];
    - [PropertiesManager] and [PlotsManager]: list fetch, form submit,
      image add / remove and the delete cascade.

    The handlers are asynchronous functions talking to a backend SDK.  They
    are embedded as programs of a small state-and-exception monad that
    records every backend call in a trace; what the backend answers is a
    parameter of the development. *)

From Stdlib Require Import ZArith QArith Ascii String List Bool Lia.
From stdpp Require Import base option list strings gmap.

Local Open Scope string_scope.
Local Open Scope list_scope.

(** ** JavaScript values *)

(** A JS number.  [Finite q] carries the mathematical value; the runtime
    stores the binary64 nearest to it (exact for integers of magnitude below
    2^53), and the two zeros are not told apart. *)
Inductive JSNumber :=
| NaN
| Infinity (negative : bool)
| Finite (q : Q).

Module JS.

(** WhiteSpace and LineTerminator code points, as TrimString removes them.
    A text is the UTF-8 form of the JS string, so a code point below U+0080
    is one byte and the others are two or three.  One byte: TAB, LF, VT, FF,
    CR and SPACE. *)
Definition isWhiteSpace (c : ascii) : bool :=
  let n := N_of_ascii c in
  ((9 <=? n) && (n <=? 13) || (n =? 32))%N.

(** two bytes: U+00A0 *)
Definition isWhiteSpace2 (b1 b2 : N) : bool :=
  ((b1 =? 194) && (b2 =? 160))%N.

(** three bytes: U+1680, U+2000..U+200A, U+2028, U+2029, U+202F, U+205F,
    U+3000 and U+FEFF *)
Definition isWhiteSpace3 (b1 b2 b3 : N) : bool :=
  ((b1 =? 225) && (b2 =? 154) && (b3 =? 128)
   || (b1 =? 226) && (b2 =? 128)
      && ((128 <=? b3) && (b3 <=? 138) || (b3 =? 168) || (b3 =? 169) || (b3 =? 175))
   || (b1 =? 226) && (b2 =? 129) && (b3 =? 159)
   || (b1 =? 227) && (b2 =? 128) && (b3 =? 128)
   || (b1 =? 239) && (b2 =? 187) && (b3 =? 191))%N.

Fixpoint TrimStart (s : string) : string :=
  match s with
  | String c1 r1 =>
      if isWhiteSpace c1 then TrimStart r1
      else
        match r1 with
        | String c2 r2 =>
            if isWhiteSpace2 (N_of_ascii c1) (N_of_ascii c2) then TrimStart r2
            else
              match r2 with
              | String c3 r3 =>
                  if isWhiteSpace3 (N_of_ascii c1) (N_of_ascii c2) (N_of_ascii c3)
                  then TrimStart r3
                  else s
              | EmptyString => s
              end
        | EmptyString => s
        end
  | EmptyString => s
  end.

Definition DecimalDigit (c : ascii) : option Z :=
  let n := Z.of_N (N_of_ascii c) in
  if ((48 <=? n) && (n <=? 57))%Z then Some (n - 48)%Z else None.

(** Longest run of decimal digits at the head of [s]: its value (on top of
    [acc]), how many digits were read (on top of [n]) and the rest. *)
Fixpoint DecimalDigits (s : string) (acc : Z) (n : Z) : Z * Z * string :=
  match s with
  | String c r =>
      match DecimalDigit c with
      | Some d => DecimalDigits r (10 * acc + d)%Z (n + 1)%Z
      | None => (acc, n, s)
      end
  | EmptyString => (acc, n, s)
  end.

(** ExponentPart: [e] or [E], an optional sign and at least one digit;
    contributes 0 when it is not there in full. *)
Definition ExponentPart (s : string) : Z :=
  match s with
  | String c r =>
      if (Ascii.eqb c "e" || Ascii.eqb c "E")%bool then
        let '(neg, r') :=
          match r with
          | String "-" t => (true, t)
          | String "+" t => (false, t)
          | _ => (false, r)
          end in
        let '(v, n, _) := DecimalDigits r' 0 0 in
        if (n =? 0)%Z then 0%Z else if neg then (- v)%Z else v
      else 0%Z
  | EmptyString => 0%Z
  end.

(** m * 10^k as a reduced fraction *)
Definition scale10 (m k : Z) : Q :=
  if (0 <=? k)%Z then inject_Z (m * 10 ^ k)
  else Qred (Qmake m (Z.to_pos (10 ^ (- k)))).

(** [parseFloat] of ECMAScript: trim leading white space, take the longest
    prefix that is a StrDecimalLiteral, [NaN] when there is none. *)
Definition parseFloat (input : string) : JSNumber :=
  let s := TrimStart input in
  let '(neg, s) :=
    match s with
    | String "-" r => (true, r)
    | String "+" r => (false, r)
    | _ => (false, s)
    end in
  if String.prefix "Infinity" s then Infinity neg else
  let '(ip, ni, s1) := DecimalDigits s 0 0 in
  let '(fp, nf, s2) :=
    match s1 with
    | String "." r => DecimalDigits r 0 0
    | _ => (0%Z, 0%Z, s1)
    end in
  if (ni + nf =? 0)%Z then NaN else
  let m := (ip * 10 ^ nf + fp)%Z in
  Finite (scale10 (if neg then - m else m) (ExponentPart s2 - nf)).

Definition isNaN (n : JSNumber) : bool :=
  match n with NaN => true | _ => false end.

End JS.

(** ** hooks/useAuth: the session provider *)

Module UseAuth.

Record User := { user_id : string }.
Record Session := { session_user : User }.

Global Instance User_eq_dec : EqDecision User.
Proof. solve_decision. Defined.

(** What a [catch] clause can receive: an [Error] object with its message,
    or some other thrown value. *)
Inductive Thrown :=
| ErrorObject (message : string)
| NotAnError.

(** Outcome of [supabase.auth.getUser(token)]: [data.user] when
    [authError] is null; otherwise the error is thrown into the [catch]. *)
Inductive FetchOutcome :=
| GotUser (data_user : option User)
| Threw (e : Thrown).

Record AuthState := {
  user : option User;
  loading : bool;
  initialized : bool;
  error : option string
}.

(** [useState] initial value *)
Definition initialAuthState : AuthState :=
  {| user := None; loading := true; initialized := false; error := None |}.

(** One mounted instance of the hook: its state, the [mounted] flag of the
    effect closure, and whether [getInitialSession] is still awaiting
    [getUser] (bookkeeping only: the code never reads it). *)
Record Provider := {
  authState : AuthState;
  mounted : bool;
  fetchPending : bool
}.

Definition mount : Provider :=
  {| authState := initialAuthState; mounted := true; fetchPending := true |}.

Inductive Notification :=
| InitialFetchSettled (o : FetchOutcome)   (* the await in getInitialSession returns *)
| AuthStateChange (session : option Session) (* onAuthStateChange callback *)
| Cleanup.                                  (* the effect's cleanup function *)

(** the two [setAuthState] calls of [getInitialSession] *)
Definition afterInitialSession (o : FetchOutcome) : AuthState :=
  match o with
  | GotUser u =>
      {| user := u; loading := false; initialized := true; error := None |}
  | Threw e =>
      {| user := None; loading := false; initialized := true;
         error := Some (match e with
                        | ErrorObject m => m
                        | NotAnError => "Authentication error"
                        end) |}
  end.

(** the functional update of the [onAuthStateChange] callback:
    [{...current, user: session?.user ?? null, loading: false, initialized: true}] *)
Definition afterAuthStateChange (session : option Session) (current : AuthState) : AuthState :=
  {| user := session_user <$> session;
     loading := false;
     initialized := true;
     error := error current |}.

Definition deliver (p : Provider) (n : Notification) : Provider :=
  match n with
  | InitialFetchSettled o =>
      if fetchPending p then
        {| authState := if mounted p then afterInitialSession o else authState p;
           mounted := mounted p;
           fetchPending := false |}
      else p
  | AuthStateChange session =>
      if mounted p then
        {| authState := afterAuthStateChange session (authState p);
           mounted := mounted p;
           fetchPending := fetchPending p |}
      else p
  | Cleanup =>
      {| authState := authState p; mounted := false; fetchPending := fetchPending p |}
  end.

Definition run (ns : list Notification) : Provider := fold_left deliver ns mount.

(** a notification that never writes the state *)
Definition quiet (n : Notification) : bool :=
  match n with Cleanup => true | _ => false end.

Inductive reachable : Provider -> Prop :=
| reach_mount : reachable mount
| reach_deliver p n : reachable p -> reachable (deliver p n).

(** What the hook returns to its caller. *)
Record AuthView := {
  view_user : option User;
  view_loading : bool;
  view_error : option string;
  isInitialized : bool
}.

Definition useAuth (a : AuthState) : AuthView :=
  {| view_user := if initialized a then user a else None;
     view_loading := loading a;
     view_error := error a;
     isInitialized := initialized a |}.

End UseAuth.

(** ** AuthGuard *)

Module AuthGuard.
Import UseAuth.

Inductive Rendered :=
| Spinner      (* the loading placeholder *)
| Children     (* the protected subtree *)
| Nothing.     (* null *)

(** the component's return value *)
Definition render (v : AuthView) : Rendered :=
  if view_loading v then Spinner
  else match view_user v with
       | Some _ => Children
       | None => Nothing
       end.

(** body of the effect: the paths passed to [navigate] *)
Definition effect (v : AuthView) : list string :=
  if (negb (view_loading v) && negb (bool_decide (is_Some (view_user v)))
      && negb (isInitialized v))%bool
  then ["/login"] else [].

(** The effect runs after the first render and after a render in which a
    dependency of [[user, loading, navigate]] changed ([navigate] is
    stable; users are compared by value here, React compares references). *)
Definition effectRuns (previous : option AuthView) (v : AuthView) : bool :=
  match previous with
  | None => true
  | Some p =>
      negb (bool_decide (view_user p = view_user v)
            && Bool.eqb (view_loading p) (view_loading v))
  end.

Definition navigations (previous : option AuthView) (v : AuthView) : list string :=
  if effectRuns previous v then effect v else [].

(** One evaluation of the guard over the hook's state. *)
Definition AuthGuard (previous : option AuthState) (a : AuthState)
  : Rendered * list string :=
  (render (useAuth a), navigations (useAuth <$> previous) (useAuth a)).

End AuthGuard.

(** ** Backend calls, traces and the handler monad *)

Inductive JValue :=
| JNull
| JStr (s : string)
| JNum (n : JSNumber)
| JArray (urls : list string).

(** A JS object literal handed to the SDK as a row or as a partial row
    (the values as the handler built them, before any serialisation). *)
Abbreviation Payload := (gmap string JValue).

Record File := { file_name : string; file_content : string }.

(** [FormData]: the form's entries in document order; [get] returns the
    first value under a name, [null] when there is none. *)
Definition FormData := list (string * string).

Fixpoint FormData_get (name : string) (fd : FormData) : option string :=
  match fd with
  | [] => None
  | (k, v) :: rest => if String.eqb k name then Some v else FormData_get name rest
  end.

(** a form entry as it is put into the payload *)
Definition entry (v : option string) : JValue :=
  match v with Some s => JStr s | None => JNull end.

(** [ToString] of a form entry, applied by [parseFloat] to its argument *)
Definition ToString (v : option string) : string :=
  match v with Some s => s | None => "null" end.

Inductive Call :=
| UploadImage (file : File) (bucket path : string)       (* uploadImage(file, bucket, path) *)
| DeleteImage (bucket url : string)                      (* deleteImage(bucket, url) *)
| Select (table column : string) (ascending : bool)      (* .select('*').order(column, {ascending}) *)
| Insert (table : string) (rows : list Payload)          (* .insert(rows) *)
| Update (table : string) (values : Payload) (id : string) (* .update(values).eq('id', id) *)
| Delete (table : string) (id : string).                 (* .delete().eq('id', id) *)

(** A call is issued, and later settles: [ok] says whether the promise
    resolved (storage helpers) or the response had no [error] (queries). *)
Inductive Event :=
| Issued (c : Call)
| Settled (c : Call) (ok : bool).

(** A settled promise, and the result of running a piece of handler code:
    a value, or a thrown error with its [message]. *)
Inductive Outcome (A : Type) :=
| Resolved (a : A)
| Rejected (message : string).
Arguments Resolved {A} a.
Arguments Rejected {A} message.

Definition resolved {A} (o : Outcome A) : bool :=
  match o with Resolved _ => true | Rejected _ => false end.

(** [{data, error}] of a select: [data] is an array when [error] is null. *)
Inductive Rows (R : Type) :=
| RowsData (data : list R)
| RowsError (message : string).
Arguments RowsData {R} data.
Arguments RowsError {R} message.

(** What the collaborators answer.  Every answer may depend on the whole
    history of calls so far.  [uploadImage] and [deleteImage] are the
    helpers of utils/imageUpload; the other four are the [error] field (and
    [data]) of the supabase query responses. *)
Record Backend (R : Type) := {
  uploadImage : list Event -> File -> string -> string -> Outcome string;
  deleteImage : list Event -> string -> string -> Outcome unit;
  select : list Event -> string -> string -> bool -> Rows R;
  insert : list Event -> string -> list Payload -> option string;
  update : list Event -> string -> Payload -> string -> option string;
  delete : list Event -> string -> string -> option string
}.
Arguments uploadImage {R} _ _ _ _ _.
Arguments deleteImage {R} _ _ _ _.
Arguments select {R} _ _ _ _ _.
Arguments insert {R} _ _ _ _.
Arguments update {R} _ _ _ _ _.
Arguments delete {R} _ _ _ _.

(** The [useState] cells of a manager component: [records] is [properties]
    or [plots], [editing] is [editingProperty] or [editingPlot]. *)
Record State (R : Type) := {
  records : list R;
  loading : bool;
  error : option string;
  editing : option R;
  showForm : bool
}.
Arguments records {R} _.
Arguments loading {R} _.
Arguments error {R} _.
Arguments editing {R} _.
Arguments showForm {R} _.

Record World (R : Type) := {
  trace : list Event;   (* backend calls so far, oldest first *)
  ui : State R          (* the state the next render will see *)
}.
Arguments trace {R} _.
Arguments ui {R} _.
Arguments Build_World {R} _ _.

Definition Async (R A : Type) : Type := World R -> World R * Outcome A.

Section Monad.
Context {R : Type}.

Definition ret {A} (a : A) : Async R A := fun w => (w, Resolved a).

Definition bind {A B} (m : Async R A) (k : A -> Async R B) : Async R B :=
  fun w =>
    match m w with
    | (w', Resolved a) => k a w'
    | (w', Rejected e) => (w', Rejected e)
    end.

Definition throw {A} (message : string) : Async R A := fun w => (w, Rejected message).

(** [try { m } catch (err) { handler(err.message) }] *)
Definition try_catch {A} (m : Async R A) (handler : string -> Async R A) : Async R A :=
  fun w =>
    match m w with
    | (w', Resolved a) => (w', Resolved a)
    | (w', Rejected e) => handler e w'
    end.

(** [try { m } finally { f }] *)
Definition try_finally {A} (m : Async R A) (f : Async R unit) : Async R A :=
  fun w =>
    match m w with
    | (w', r) =>
        match f w' with
        | (w'', Resolved _) => (w'', r)
        | (w'', Rejected e) => (w'', Rejected e)
        end
    end.

Definition setState (f : State R -> State R) : Async R unit :=
  fun w => ({| trace := trace w; ui := f (ui w) |}, Resolved tt).

Definition setRecords (v : list R) : Async R unit :=
  setState (fun s => {| records := v; loading := loading s; error := error s;
                        editing := editing s; showForm := showForm s |}).
Definition setLoading (v : bool) : Async R unit :=
  setState (fun s => {| records := records s; loading := v; error := error s;
                        editing := editing s; showForm := showForm s |}).
Definition setError (v : option string) : Async R unit :=
  setState (fun s => {| records := records s; loading := loading s; error := v;
                        editing := editing s; showForm := showForm s |}).
Definition setEditing (v : option R) : Async R unit :=
  setState (fun s => {| records := records s; loading := loading s; error := error s;
                        editing := v; showForm := showForm s |}).
Definition setShowForm (v : bool) : Async R unit :=
  setState (fun s => {| records := records s; loading := loading s; error := error s;
                        editing := editing s; showForm := v |}).

Definition log (e : Event) : Async R unit :=
  fun w => ({| trace := trace w ++ [e]; ui := ui w |}, Resolved tt).

(** the call goes out *)
Definition issue (c : Call) : Async R unit := log (Issued c).

(** the call comes back with the collaborator's answer *)
Definition settle {X} (c : Call) (answer : list Event -> X) (ok : X -> bool) : Async R X :=
  fun w =>
    let x := answer (trace w) in
    ({| trace := trace w ++ [Settled c (ok x)]; ui := ui w |}, Resolved x).

(** [await] of a promise that may reject *)
Definition await {A} (p : Async R (Outcome A)) : Async R A :=
  bind p (fun o => match o with
                   | Resolved a => ret a
                   | Rejected e => throw e
                   end).

(** [await supabase.from(..)...]: resolves with the response *)
Definition query {X} (c : Call) (answer : list Event -> X) (ok : X -> bool) : Async R X :=
  bind (issue c) (fun _ => settle c answer ok).

(** [await helper(..)] for [uploadImage] and [deleteImage] *)
Definition invoke {A} (c : Call) (answer : list Event -> Outcome A) : Async R A :=
  bind (issue c) (fun _ => await (settle c answer resolved)).

Fixpoint issue_all (cs : list Call) : Async R unit :=
  match cs with
  | [] => ret tt
  | c :: cs' => bind (issue c) (fun _ => issue_all cs')
  end.

Fixpoint settle_all {X A} (mk : X -> Call) (answer : list Event -> X -> Outcome A)
    (xs : list X) : Async R (list A) :=
  match xs with
  | [] => ret []
  | x :: xs' =>
      bind (await (settle (mk x) (fun tr => answer tr x) resolved)) (fun a =>
      bind (settle_all mk answer xs') (fun rest =>
      ret (a :: rest)))
  end.

(** [await Promise.all(xs.map(x => helper(x)))].  [map] starts every call,
    in the order of [xs]; the results come back in that order too.  When
    a promise rejects, [Promise.all] rejects and the others are no longer
    waited for.  In which order the calls settle is the backend's
    business: here they settle in the order of [xs], which fixes only
    whose message is reported when several reject. *)
Definition Promise_all {X A} (mk : X -> Call) (answer : list Event -> X -> Outcome A)
    (xs : list X) : Async R (list A) :=
  bind (issue_all (map mk xs)) (fun _ => settle_all mk answer xs).

(** What [settle_all] observes, as a function of the history: the
    settlement events it logs and the value [Promise.all] yields. *)
Fixpoint settlements {X A} (mk : X -> Call) (answer : list Event -> X -> Outcome A)
    (tr : list Event) (xs : list X) : list Event * Outcome (list A) :=
  match xs with
  | [] => ([], Resolved [])
  | x :: xs' =>
      match answer tr x with
      | Rejected e => ([Settled (mk x) false], Rejected e)
      | Resolved a =>
          let rest := settlements mk answer (tr ++ [Settled (mk x) true]) xs' in
          (Settled (mk x) true :: fst rest,
           match snd rest with
           | Resolved l => Resolved (a :: l)
           | Rejected e => Rejected e
           end)
      end
  end.

End Monad.

Notation "x <- m ;; k" := (bind m (fun x => k))
  (at level 100, m at next level, right associativity).
Notation "m ;; k" := (bind m (fun _ => k))
  (at level 100, right associativity).

(** ** The record manager

    [PropertiesManager] and [PlotsManager] have the same [fetch*],
    [handleImageUpload], [handleImageDelete] and [handleDelete] up to the
    table, the storage bucket and the upload path; they are embedded once,
    over what the two row types share. *)

Class Row (R : Type) := {
  row_id : R -> string;                      (* r.id *)
  row_images : R -> list string;             (* r.images *)
  with_images : R -> list string -> R;       (* { ...r, images } *)
  row_images_with : forall r l, row_images (with_images r l) = l;
  row_id_with : forall r l, row_id (with_images r l) = row_id r
}.

Definition no_error (e : option string) : bool :=
  match e with None => true | Some _ => false end.

Definition rows_ok {R} (r : Rows R) : bool :=
  match r with RowsData _ => true | RowsError _ => false end.

Section RecordManager.
Context {R : Type} `{Row R}.
Variable B : Backend R.
Variable table : string.                 (* tableName, or 'plots' *)
Variable bucket : string.                (* 'properties', or 'plots' *)
Variable uploadPath : option R -> string. (* third argument of uploadImage *)

(** the list query: every row, newest first *)
Definition refetch : Call := Select table "created_at" false.

(** fetchProperties / fetchPlots *)
Definition fetchRecords : Async R unit :=
  try_finally
    (try_catch
       (r <- query refetch
                   (fun tr => select B tr table "created_at" false) rows_ok ;;
        match r with
        | RowsError e => throw e
        | RowsData data => setRecords data
        end)
       (fun message => setError (Some message)))
    (setLoading false).

(** The rest of [handleSubmit] once the row has been built from the form:
    update when editing, insert otherwise, then refetch and close. *)
Definition submit (st : State R) (rowData : Payload) : Async R unit :=
  try_catch
    (match editing st with
     | Some ed =>
         e <- query (Update table rowData (row_id ed))
                    (fun tr => update B tr table rowData (row_id ed)) no_error ;;
         match e with Some m => throw m | None => ret tt end
     | None =>
         e <- query (Insert table [rowData])
                    (fun tr => insert B tr table [rowData]) no_error ;;
         match e with Some m => throw m | None => ret tt end
     end ;;
     fetchRecords ;;
     setShowForm false ;;
     setEditing None)
    (fun message => setError (Some message)).

(** the one write [submit] sends, and the [error] of its response *)
Definition submitCall (st : State R) (rowData : Payload) : Call :=
  match editing st with
  | Some ed => Update table rowData (row_id ed)
  | None => Insert table [rowData]
  end.

Definition submitError (st : State R) (rowData : Payload) (tr : list Event)
  : option string :=
  match editing st with
  | Some ed => update B tr table rowData (row_id ed)
  | None => insert B tr table [rowData]
  end.

Definition uploadCall (st : State R) (file : File) : Call :=
  UploadImage file bucket (uploadPath (editing st)).

Definition handleImageUpload (st : State R) (files : list File) : Async R unit :=
  try_catch
    (urls <- Promise_all (uploadCall st)
               (fun tr file => uploadImage B tr file bucket (uploadPath (editing st)))
               files ;;
     match editing st with
     | Some ed =>
         let updatedImages := row_images ed ++ urls in
         setEditing (Some (with_images ed updatedImages)) ;;
         _ <- query (Update table {[ "images" := JArray updatedImages ]} (row_id ed))
                    (fun tr => update B tr table {[ "images" := JArray updatedImages ]}
                                      (row_id ed)) no_error ;;
         ret tt
     | None => ret tt
     end)
    (fun message => setError (Some message)).

Definition handleImageDelete (st : State R) (url : string) : Async R unit :=
  try_catch
    (invoke (DeleteImage bucket url) (fun tr => deleteImage B tr bucket url) ;;
     match editing st with
     | Some ed =>
         let updatedImages :=
           List.filter (fun img => negb (String.eqb img url)) (row_images ed) in
         setEditing (Some (with_images ed updatedImages)) ;;
         _ <- query (Update table {[ "images" := JArray updatedImages ]} (row_id ed))
                    (fun tr => update B tr table {[ "images" := JArray updatedImages ]}
                                      (row_id ed)) no_error ;;
         ret tt
     | None => ret tt
     end)
    (fun message => setError (Some message)).

(** [confirmed] is what [confirm(..)] returned. *)
Definition handleDelete (st : State R) (confirmed : bool) (id : string) : Async R unit :=
  if negb confirmed then ret tt else
  try_catch
    (match List.find (fun p => String.eqb (row_id p) id) (records st) with
     | None =>
         (* [property] is undefined: reading [.images] throws a TypeError *)
         throw "Cannot read properties of undefined (reading 'images')"
     | Some property =>
         (* Delete images first *)
         Promise_all (DeleteImage bucket)
           (fun tr url => deleteImage B tr bucket url) (row_images property) ;;
         e <- query (Delete table id) (fun tr => delete B tr table id) no_error ;;
         match e with Some m => throw m | None => ret tt end ;;
         fetchRecords
     end)
    (fun message => setError (Some message)).

End RecordManager.

(** [editing?.id || 'new']: the empty string is falsy too *)
Definition id_or_new {R} `{Row R} (ed : option R) : string :=
  match ed with
  | Some r => if String.eqb (row_id r) "" then "new" else row_id r
  | None => "new"
  end.

(** ** PropertiesManager *)

Module PropertiesManager.

Record Property := {
  id : string;
  builder_name : string;
  project : string;
  location : string;
  size : string;
  price : JSNumber;
  images : list string
}.

Global Instance Property_Row : Row Property := {|
  row_id := id;
  row_images := images;
  with_images p l :=
    {| id := id p; builder_name := builder_name p; project := project p;
       location := location p; size := size p; price := price p; images := l |};
  row_images_with _ _ := eq_refl;
  row_id_with _ _ := eq_refl
|}.

Inductive PropertyType := resale | primary_sale | rental.

Definition type_string (type : PropertyType) : string :=
  match type with
  | resale => "resale"
  | primary_sale => "primary-sale"
  | rental => "rental"
  end.

Definition tableName (type : PropertyType) : string :=
  (type_string type ++ "_properties")%string.

Section Component.
Variable B : Backend Property.
Variable type : PropertyType.

Definition fetchProperties : Async Property unit :=
  fetchRecords B (tableName type).

Definition propertyData (st : State Property) (formData : FormData) : Payload :=
  {[ "builder_name" := entry (FormData_get "builder_name" formData);
     "project" := entry (FormData_get "project" formData);
     "location" := entry (FormData_get "location" formData);
     "size" := entry (FormData_get "size" formData);
     "price" := JNum (JS.parseFloat (ToString (FormData_get "price" formData)));
     "images" := JArray (match editing st with
                         | Some ed => images ed
                         | None => []
                         end) ]}.

Definition handleSubmit (st : State Property) (formData : FormData)
  : Async Property unit :=
  setError None ;;
  submit B (tableName type) st (propertyData st formData).

Definition handleImageUpload :=
  handleImageUpload B (tableName type) "properties"
    (fun ed => (type_string type ++ "/" ++ id_or_new ed)%string).

Definition handleImageDelete :=
  handleImageDelete B (tableName type) "properties".

Definition handleDelete :=
  handleDelete B (tableName type) "properties".
End Component.

End PropertiesManager.

(** ** PlotsManager *)

Module PlotsManager.

Record Plot := {
  id : string;
  builder_name : string;
  project : string;
  location : string;
  price_per_sqft : JSNumber;
  total_price : JSNumber;
  images : list string
}.

Global Instance Plot_Row : Row Plot := {|
  row_id := id;
  row_images := images;
  with_images p l :=
    {| id := id p; builder_name := builder_name p; project := project p;
       location := location p; price_per_sqft := price_per_sqft p;
       total_price := total_price p; images := l |};
  row_images_with _ _ := eq_refl;
  row_id_with _ _ := eq_refl
|}.

Section Component.
Variable B : Backend Plot.

Definition fetchPlots : Async Plot unit := fetchRecords B "plots".

Definition plotData (st : State Plot) (formData : FormData) : Payload :=
  {[ "builder_name" := entry (FormData_get "builder_name" formData);
     "project" := entry (FormData_get "project" formData);
     "location" := entry (FormData_get "location" formData);
     "price_per_sqft" :=
       JNum (JS.parseFloat (ToString (FormData_get "price_per_sqft" formData)));
     "total_price" :=
       JNum (JS.parseFloat (ToString (FormData_get "total_price" formData)));
     "images" := JArray (match editing st with
                         | Some ed => images ed
                         | None => []
                         end) ]}.

Definition handleSubmit (st : State Plot) (formData : FormData) : Async Plot unit :=
  setError None ;;
  submit B "plots" st (plotData st formData).

Definition handleImageUpload :=
  handleImageUpload B "plots" "plots" id_or_new.

Definition handleImageDelete := handleImageDelete B "plots" "plots".

Definition handleDelete := handleDelete B "plots" "plots".
End Component.

End PlotsManager.


(** ** The store's side of a partial update *)

(** What the record store does with [.update(values).eq('id', id)] on the
    matching row (the specification's [update(table, partial, match-by-id)]):
    the columns named in [values] are overwritten, every other column keeps
    its value. *)
Definition patch (values row : Payload) : Payload := values ∪ row.

(** ** Object storage *)

(** The object store behind [deleteImage], as the specification describes
    it. *)
Module Storage.

(** the objects held, as (bucket, url) *)
Abbreviation Store := (gset (string * string)).

Inductive Report := Removed | AlreadyAbsent.

Definition remove (store : Store) (bucket url : string) : Store * Report :=
  if decide ((bucket, url) ∈ store)
  then (store ∖ {[ (bucket, url) ]}, Removed)
  else (store, AlreadyAbsent).

(** the store after the storage deletes of a history *)
Fixpoint replay (store : Store) (tr : list Event) : Store :=
  match tr with
  | [] => store
  | Settled (DeleteImage bucket url) true :: rest =>
      replay (fst (remove store bucket url)) rest
  | _ :: rest => replay store rest
  end.

Definition report (store : Store) (tr : list Event) (bucket url : string) : Report :=
  snd (remove (replay store tr) bucket url).

(** Modelled from the spec: [deleteImage] lives in utils/imageUpload, which
    is not among the sources.  The specification's [remove(namespace, URL)]
    "deletes the stored object referenced by URL; idempotent - removing an
    already-absent object must not be treated as a fatal error".  The
    promise therefore resolves whether the object was there or not, and
    rejects only when the storage service cannot be reached. *)
Definition deleteImage (store : Store) (unreachable : list Event -> option string)
    (tr : list Event) (bucket url : string) : Outcome unit :=
  match unreachable tr with
  | Some message => Rejected message
  | None =>
      match report store tr bucket url with
      | Removed => Resolved tt
      | AlreadyAbsent => Resolved tt
      end
  end.

(** a backend whose [deleteImage] is the one above *)
Definition backend {R : Type} (store : Store) (unreachable : list Event -> option string)
    (B : Backend R) : Backend R :=
  Build_Backend R (uploadImage B) (deleteImage store unreachable)
    (select B) (insert B) (update B) (delete B).

End Storage.

(** ** Sample collaborators and data *)

Module Samples.

(** A sample object store, used to run the theorems on concrete data: it
    addresses an object by bucket, path and file name.  How the real
    [uploadImage] (utils/imageUpload, not among the sources) names objects
    is not known. *)
Definition publicUrl (bucket path name : string) : string :=
  ("https://cdn.example/" ++ bucket ++ "/" ++ path ++ "/" ++ name)%string.

(** a backend on which every call succeeds; selects return [rows] *)
Definition accepting {R : Type} (rows : list R) : Backend R :=
  {| uploadImage _ file bucket path := Resolved (publicUrl bucket path (file_name file));
     deleteImage _ _ _ := Resolved tt;
     select _ _ _ _ := RowsData rows;
     insert _ _ _ := None;
     update _ _ _ _ := None;
     delete _ _ _ := None |}.


Definition blank {R : Type} (rows : list R) (ed : option R) : State R :=
  {| records := rows; loading := false; error := None; editing := ed; showForm := true |}.

Definition start {R : Type} (st : State R) : World R := {| trace := []; ui := st |}.

Definition photo : File := {| file_name := "a.png"; file_content := "..." |}.
Definition photo2 : File := {| file_name := "b.png"; file_content := "..." |}.

Definition R1 : PropertiesManager.Property :=
  {| PropertiesManager.id := "R1";
     PropertiesManager.builder_name := "Acme";
     PropertiesManager.project := "Skyview";
     PropertiesManager.location := "Lakeview";
     PropertiesManager.size := "1200";
     PropertiesManager.price := Finite (inject_Z 1000000);
     PropertiesManager.images := [publicUrl "properties" "resale/R1" "a.png"] |}.

Definition P1 : PlotsManager.Plot :=
  {| PlotsManager.id := "P1";
     PlotsManager.builder_name := "Acme";
     PlotsManager.project := "Greenfield";
     PlotsManager.location := "Lakeview";
     PlotsManager.price_per_sqft := Finite (inject_Z 900);
     PlotsManager.total_price := Finite (inject_Z 1800000);
     PlotsManager.images := [publicUrl "plots" "P1" "a.png"; publicUrl "plots" "P1" "b.png"] |}.

Definition newPropertyForm (price : string) : FormData :=
  [("builder_name", "Acme"); ("project", "Skyview"); ("location", "Lakeview");
   ("size", "1200"); ("price", price)].

Definition newPlotForm (price_per_sqft total_price : string) : FormData :=
  [("builder_name", "Acme"); ("project", "Greenfield"); ("location", "Lakeview");
   ("price_per_sqft", price_per_sqft); ("total_price", total_price)].

End Samples.


(** ** Buttons, first render and what is on screen *)

Section Screen.
Context {R : Type} `{Row R}.

(** the [useState] initial values of a manager *)
Definition initialState : State R :=
  {| records := []; loading := true; error := None; editing := None; showForm := false |}.

(** the "Add" button: [setEditing*(null); setShowForm(true)] *)
Definition onAddClick : Async R unit :=
  setEditing None ;; setShowForm true.

(** the pencil button of a row: [setEditing*(row); setShowForm(true)] *)
Definition onEditClick (r : R) : Async R unit :=
  setEditing (Some r) ;; setShowForm true.

(** the "Cancel" button: [setShowForm(false)] *)
Definition onCancelClick : Async R unit :=
  setShowForm false.

(** The conditional parts of the JSX a manager returns: the placeholder
    while [loading]; otherwise the heading, the error banner
    ([{error && ...}]: a null or empty message shows none), the form when
    [showForm] with the label of its submit button and the images handed to
    [ImageUploader], and one table row per record, in the order of the
    list.  Cell formatting is left out. *)
Record FormView := {
  submitLabel : string;
  uploaderImages : list string
}.

Inductive View :=
| LoadingView
| PageView (heading : string) (banner : option string) (form : option FormView)
           (rows : list R).

Definition view (heading noun : string) (st : State R) : View :=
  if loading st then LoadingView
  else
    PageView heading
      (match error st with
       | Some message => if String.eqb message "" then None else Some message
       | None => None
       end)
      (if showForm st
       then Some {| submitLabel :=
                      ((match editing st with Some _ => "Update" | None => "Create" end)
                       ++ " " ++ noun)%string;
                    uploaderImages :=
                      match editing st with
                      | Some ed => row_images ed
                      | None => []
                      end |}
       else None)
      (records st).

End Screen.

(** [PropertiesManager]'s heading and its render *)
Definition propertiesHeading (type : PropertiesManager.PropertyType) : string :=
  match type with
  | PropertiesManager.resale => "Resale Properties"
  | PropertiesManager.primary_sale => "Primary Sale Properties"
  | PropertiesManager.rental => "Rental Properties"
  end.

Definition renderProperties (type : PropertiesManager.PropertyType)
    (st : State PropertiesManager.Property) : View :=
  view (propertiesHeading type) "Property" st.

Definition renderPlots (st : State PlotsManager.Plot) : View :=
  view "Gated Community Plots" "Plot" st.

(** ** Notions used to state what handlers do and never do *)

(** the table a record-store call goes to, the bucket a storage call goes to *)
Definition table_of (c : Call) : option string :=
  match c with
  | Select t _ _ | Insert t _ | Update t _ _ | Delete t _ => Some t
  | UploadImage _ _ _ | DeleteImage _ _ => None
  end.

Definition bucket_of (c : Call) : option string :=
  match c with
  | UploadImage _ b _ | DeleteImage b _ => Some b
  | _ => None
  end.

Definition call_of (e : Event) : Call :=
  match e with Issued c => c | Settled c _ => c end.

(** an event of a call to [table] or to [bucket] *)
Definition within (table bucket : string) (e : Event) : Prop :=
  table_of (call_of e) = Some table \/ bucket_of (call_of e) = Some bucket.

(** [m] relates every world it is run in to the world it leaves *)
Definition guarantees {R A : Type} (G : World R -> World R -> Prop) (m : Async R A) : Prop :=
  forall w, G w (fst (m w)).

(** [m] catches whatever is thrown inside it *)
Definition never_throws {R A : Type} (m : Async R A) : Prop :=
  forall w, exists a, snd (m w) = Resolved a.

(** What a handler may do to the world: it only appends events, all of them
    within its table and bucket; it never turns [loading] on; and the list
    of records changes only when a refetch came back with data. *)
Definition footprint {R : Type} (table bucket : string) (w w' : World R) : Prop :=
  exists evs,
    trace w' = trace w ++ evs
    /\ Forall (within table bucket) evs
    /\ (loading (ui w') = loading (ui w) \/ loading (ui w') = false)
    /\ (records (ui w') = records (ui w) \/ In (Settled (refetch table) true) evs).

(** ** Which texts [parseFloat] rejects *)

(** After leading white space and an optional sign, the text starts a
    StrDecimalLiteral: with "Infinity", with a digit, or with a dot followed
    by a digit. *)
Definition startsNumber (input : string) : bool :=
  let s := JS.TrimStart input in
  let s :=
    match s with
    | String "-" r => r
    | String "+" r => r
    | _ => s
    end in
  if String.prefix "Infinity" s then true else
  match s with
  | String c r =>
      match JS.DecimalDigit c with
      | Some _ => true
      | None =>
          if Ascii.eqb c "."
          then match r with
               | String d _ => bool_decide (is_Some (JS.DecimalDigit d))
               | EmptyString => false
               end
          else false
      end
  | EmptyString => false
  end.

(** ** What the user can do on a manager screen *)

(** The events a manager reacts to: the mount effect, the three buttons
    outside the table row's delete, the form's submit, the two callbacks of
    [ImageUploader], and the row's delete button with the answer given to
    [confirm]. *)
Inductive Action (R : Type) :=
| Mounted
| AddClicked
| EditClicked (r : R)
| CancelClicked
| Submitted (formData : FormData)
| FilesChosen (files : list File)
| ImageRemoved (url : string)
| DeleteClicked (id : string) (confirmed : bool).
Arguments Mounted {R}.
Arguments AddClicked {R}.
Arguments EditClicked {R} r.
Arguments CancelClicked {R}.
Arguments Submitted {R} formData.
Arguments FilesChosen {R} files.
Arguments ImageRemoved {R} url.
Arguments DeleteClicked {R} id confirmed.

(** what [PropertiesManager] runs on each event; [st] is the state of the
    render whose closures the handler carries *)
Definition propertiesReact (B : Backend PropertiesManager.Property)
    (type : PropertiesManager.PropertyType) (st : State PropertiesManager.Property)
    (a : Action PropertiesManager.Property) : Async PropertiesManager.Property unit :=
  match a with
  | Mounted => PropertiesManager.fetchProperties B type
  | AddClicked => onAddClick
  | EditClicked r => onEditClick r
  | CancelClicked => onCancelClick
  | Submitted formData => PropertiesManager.handleSubmit B type st formData
  | FilesChosen files => PropertiesManager.handleImageUpload B type st files
  | ImageRemoved url => PropertiesManager.handleImageDelete B type st url
  | DeleteClicked id confirmed => PropertiesManager.handleDelete B type st confirmed id
  end.

Definition plotsReact (B : Backend PlotsManager.Plot) (st : State PlotsManager.Plot)
    (a : Action PlotsManager.Plot) : Async PlotsManager.Plot unit :=
  match a with
  | Mounted => PlotsManager.fetchPlots B
  | AddClicked => onAddClick
  | EditClicked r => onEditClick r
  | CancelClicked => onCancelClick
  | Submitted formData => PlotsManager.handleSubmit B st formData
  | FilesChosen files => PlotsManager.handleImageUpload B st files
  | ImageRemoved url => PlotsManager.handleImageDelete B st url
  | DeleteClicked id confirmed => PlotsManager.handleDelete B st confirmed id
  end.

(** A run of events, one after the other: each handler runs to its end on
    the state the previous one left (handlers that overlap in time are not
    covered). *)
Definition interact {R : Type} (react : State R -> Action R -> Async R unit)
    (w : World R) (actions : list (Action R)) : World R :=
  fold_left (fun w a => fst (react (ui w) a w)) actions w.

(** an [error] that was set before is still set after, possibly to another
    message *)
Definition keeps_banner {R : Type} (w w' : World R) : Prop :=
  is_Some (error (ui w)) -> is_Some (error (ui w')).

(** every event but a form submission *)
Definition notSubmit {R : Type} (a : Action R) : bool :=
  match a with Submitted _ => false | _ => true end.

(** ** More sample collaborators *)

Module Scenes.

(** every call succeeds, except that the table refuses updates *)
Definition refusingUpdates {R : Type} (rows : list R) : Backend R :=
  {| uploadImage := uploadImage (Samples.accepting rows);
     deleteImage := deleteImage (Samples.accepting rows);
     select := select (Samples.accepting rows);
     insert := insert (Samples.accepting rows);
     update _ _ _ _ := Some "permission denied for table";
     delete := delete (Samples.accepting rows) |}.

(** every call succeeds, except that the table refuses deletes *)
Definition refusingDeletes {R : Type} (rows : list R) : Backend R :=
  {| uploadImage := uploadImage (Samples.accepting rows);
     deleteImage := deleteImage (Samples.accepting rows);
     select := select (Samples.accepting rows);
     insert := insert (Samples.accepting rows);
     update := update (Samples.accepting rows);
     delete _ _ _ := Some "permission denied for table" |}.

(** every call succeeds, except that storage deletes are rejected *)
Definition brokenStorage {R : Type} (rows : list R) : Backend R :=
  {| uploadImage := uploadImage (Samples.accepting rows);
     deleteImage _ _ _ := Rejected "Failed to fetch";
     select := select (Samples.accepting rows);
     insert := insert (Samples.accepting rows);
     update := update (Samples.accepting rows);
     delete := delete (Samples.accepting rows) |}.

(** a screen that already shows a message *)
Definition withBanner {R : Type} (rows : list R) (message : string) : State R :=
  {| records := rows; loading := false; error := Some message; editing := None;
     showForm := false |}.

End Scenes.

(** ** The form in front of [handleSubmit] *)

(** Both managers render [<form onSubmit={handleSubmit}>] without
    [noValidate], around inputs that are all [required]; the numeric ones
    are [type="number"].  The browser sanitizes what is in an input into its
    value and runs constraint validation before it fires [submit]; on an
    invalid form the handler is not called. *)
Module Form.

Inductive InputType := text | number.

Record Input := {
  name : string;
  type : InputType;
  required : bool
}.

Definition dropMinus (s : string) : string :=
  match s with
  | String "-" r => r
  | _ => s
  end.

(** The mantissa of HTML's "valid floating-point number": digits, optionally
    a dot and more digits, or a dot and digits; gives what follows it. *)
Definition afterMantissa (s : string) : option string :=
  let '(_, ni, s1) := JS.DecimalDigits s 0 0 in
  match s1 with
  | String "." r =>
      let '(_, nf, s2) := JS.DecimalDigits r 0 0 in
      if (0 <? nf)%Z then Some s2 else None
  | _ => if (0 <? ni)%Z then Some s1 else None
  end.

(** nothing, or [e]/[E], an optional sign and digits, up to the end *)
Definition exponentOrEnd (s : string) : bool :=
  match s with
  | EmptyString => true
  | String c r =>
      if (Ascii.eqb c "e" || Ascii.eqb c "E")%bool then
        let r' :=
          match r with
          | String "-" t => t
          | String "+" t => t
          | _ => r
          end in
        let '(_, ne, rest) := JS.DecimalDigits r' 0 0 in
        ((0 <? ne)%Z && String.eqb rest "")%bool
      else false
  end.

(** HTML: "valid floating-point number" *)
Definition validFloatingPointNumber (s : string) : bool :=
  match afterMantissa (dropMinus s) with
  | Some rest => exponentOrEnd rest
  | None => false
  end.

Fixpoint stripNewlines (s : string) : string :=
  match s with
  | String c r =>
      if (Ascii.eqb c "010" || Ascii.eqb c "013")%bool
      then stripNewlines r
      else String c (stripNewlines r)
  | EmptyString => EmptyString
  end.

(** value sanitization: what [input.value] is for the text in the box *)
Definition sanitize (t : InputType) (typed : string) : string :=
  match t with
  | number => if validFloatingPointNumber typed then typed else ""
  | text => stripNewlines typed
  end.

(** [typed] holds, by input name, what the user has put in each box *)
Definition value (typed : FormData) (i : Input) : string :=
  sanitize (type i) (default "" (FormData_get (name i) typed)).

(** [new FormData(form)]: one entry per input, in document order *)
Definition entries (inputs : list Input) (typed : FormData) : FormData :=
  map (fun i => (name i, value typed i)) inputs.

Definition valueMissing (typed : FormData) (i : Input) : bool :=
  (required i && String.eqb (value typed i) "")%bool.

(** Constraint validation.  [further] stands for the browser's remaining
    checks on the values (the step of a numeric input, its range). *)
Definition valid (further : FormData -> bool) (inputs : list Input) (typed : FormData)
  : bool :=
  (forallb (fun i => negb (valueMissing typed i)) inputs
   && further (entries inputs typed))%bool.

(** a press on the submit button: [onSubmit] runs only on a valid form *)
Definition requestSubmit {R : Type} (further : FormData -> bool) (inputs : list Input)
    (typed : FormData) (onSubmit : FormData -> Async R unit) : Async R unit :=
  if valid further inputs typed then onSubmit (entries inputs typed) else ret tt.

End Form.

(** the inputs of the property form and of the plot form *)
Definition propertyInputs : list Form.Input :=
  [ {| Form.name := "builder_name"; Form.type := Form.text; Form.required := true |};
    {| Form.name := "project"; Form.type := Form.text; Form.required := true |};
    {| Form.name := "location"; Form.type := Form.text; Form.required := true |};
    {| Form.name := "size"; Form.type := Form.text; Form.required := true |};
    {| Form.name := "price"; Form.type := Form.number; Form.required := true |} ].

Definition plotInputs : list Form.Input :=
  [ {| Form.name := "builder_name"; Form.type := Form.text; Form.required := true |};
    {| Form.name := "project"; Form.type := Form.text; Form.required := true |};
    {| Form.name := "location"; Form.type := Form.text; Form.required := true |};
    {| Form.name := "price_per_sqft"; Form.type := Form.number; Form.required := true |};
    {| Form.name := "total_price"; Form.type := Form.number; Form.required := true |} ].

Definition submitPropertyForm (B : Backend PropertiesManager.Property)
    (type : PropertiesManager.PropertyType) (st : State PropertiesManager.Property)
    (further : FormData -> bool) (typed : FormData)
  : Async PropertiesManager.Property unit :=
  Form.requestSubmit further propertyInputs typed (PropertiesManager.handleSubmit B type st).

Definition submitPlotForm (B : Backend PlotsManager.Plot) (st : State PlotsManager.Plot)
    (further : FormData -> bool) (typed : FormData) : Async PlotsManager.Plot unit :=
  Form.requestSubmit further plotInputs typed (PlotsManager.handleSubmit B st).

(** the rows a call hands to the record store *)
Definition rowsOf (c : Call) : list Payload :=
  match c with
  | Insert _ rows => rows
  | Update _ values _ => [values]
  | _ => []
  end.

Definition carriesNaN (field : string) (c : Call) : Prop :=
  exists row, In row (rowsOf c) /\ row !! field = Some (JNum NaN).
(** * parseFloat on sample inputs *)

Example parseFloat_1000000 : JS.parseFloat "1000000" = Finite (inject_Z 1000000).
Proof. reflexivity. Qed.
Example parseFloat_abc : JS.parseFloat "abc" = NaN.
Proof. reflexivity. Qed.
Example parseFloat_prefix : JS.parseFloat "  -12.50e1px" = Finite (inject_Z (-125)).
Proof. reflexivity. Qed.
Example parseFloat_frac : JS.parseFloat ".5" = Finite (1 # 2).
Proof. reflexivity. Qed.
Example parseFloat_dot : JS.parseFloat "." = NaN.
Proof. reflexivity. Qed.
Example parseFloat_null : JS.parseFloat "null" = NaN.
Proof. reflexivity. Qed.
Example parseFloat_empty : JS.parseFloat "" = NaN.
Proof. reflexivity. Qed.
Example parseFloat_nbsp :
  JS.parseFloat (String (ascii_of_N 194) (String (ascii_of_N 160) "12"))
  = Finite (inject_Z 12).
Proof. reflexivity. Qed.
Example parseFloat_bom_ls :
  JS.parseFloat (String (ascii_of_N 239) (String (ascii_of_N 187) (String (ascii_of_N 191)
                  (String (ascii_of_N 226) (String (ascii_of_N 128)
                     (String (ascii_of_N 168) "-.5"))))))
  = Finite (- 1 # 2).
Proof. reflexivity. Qed.

(** * Properties of the session provider and the guard *)

Module AuthFacts.
Import UseAuth AuthGuard.

Lemma run_snoc ns n : run (ns ++ [n]) = deliver (run ns) n.
Proof. unfold run. now rewrite fold_left_app. Qed.

Lemma reachable_run ns : reachable (run ns).
Proof.
  induction ns as [|n ns IH] using rev_ind.
  - apply reach_mount.
  - rewrite run_snoc. now apply reach_deliver.
Qed.

Lemma reachable_is_run p : reachable p -> exists ns, run ns = p.
Proof.
  induction 1 as [|p n _ [ns <-]].
  - now exists [].
  - exists (ns ++ [n]). apply run_snoc.
Qed.

(** [loading] turns false exactly when [initialized] turns true. *)
Lemma loading_iff_uninitialized p :
  reachable p -> loading (authState p) = negb (initialized (authState p)).
Proof.
  induction 1 as [|p n _ IH]; [reflexivity|].
  destruct n as [o| session |]; simpl.
  - destruct (fetchPending p); [|exact IH].
    simpl. destruct (mounted p); [|exact IH]. now destruct o.
  - destruct (mounted p); [reflexivity|exact IH].
  - exact IH.
Qed.

(** No identity is stored before the state is marked initialized. *)
Lemma user_stored_initialized p :
  reachable p -> initialized (authState p) = false -> user (authState p) = None.
Proof.
  induction 1 as [|p n _ IH]; [reflexivity|].
  destruct n as [o| session |]; simpl.
  - destruct (fetchPending p); [|exact IH].
    simpl. destruct (mounted p); [|exact IH]. now destruct o.
  - destruct (mounted p); [discriminate|exact IH].
  - exact IH.
Qed.

Lemma effect_dead p : reachable p -> effect (useAuth (authState p)) = [].
Proof.
  intros Hp. unfold effect, useAuth. simpl.
  rewrite (loading_iff_uninitialized p Hp).
  destruct (initialized (authState p)); simpl; [|reflexivity].
  now rewrite andb_false_r.
Qed.

Lemma quiet_run ns :
  forallb quiet ns = true -> authState (run ns) = initialAuthState.
Proof.
  induction ns as [|n ns IH] using rev_ind; [reflexivity|].
  rewrite forallb_app. simpl. rewrite andb_true_r.
  intros [Hns Hn]%andb_true_iff. rewrite run_snoc.
  destruct n; try discriminate. simpl. now apply IH.
Qed.

(** C2: one evaluation of the guard.  Whatever the hook's state: with
    [loading] false, no identity and [isInitialized] true the guard does
    not navigate and renders nothing; with [loading] true it renders the
    placeholder and does not navigate.  On the states the session provider
    can reach, [loading] false never comes with [isInitialized] false, so
    the redirect never fires, and an exposed identity always gets the
    protected subtree. *)
Theorem guard_evaluation (previous : option AuthState) (a : AuthState) :
  let v := useAuth a in
  let out := fst (AuthGuard.AuthGuard previous a) in
  let navs := snd (AuthGuard.AuthGuard previous a) in
  (view_loading v = false -> view_user v = None -> isInitialized v = true ->
     navs = [] /\ out = Nothing) /\
  (view_loading v = true -> out = Spinner /\ navs = []) /\
  (forall u, view_loading v = false -> view_user v = Some u -> out = Children) /\
  (forall p, reachable p -> a = authState p ->
     navs = [] /\
     (view_loading v = false -> isInitialized v = false -> False) /\
     (forall u, view_user v = Some u -> out = Children)).
Proof.
  intros v out navs. subst v out navs.
  unfold AuthGuard.AuthGuard, navigations, render, effect. cbn [fst snd].
  split; [|split; [|split]].
  - intros H1 H2 H3. rewrite H1, H2, H3. cbn. split; [|reflexivity].
    now destruct (effectRuns _ _).
  - intros H1. rewrite H1. cbn. split; [reflexivity|].
    now destruct (effectRuns _ _).
  - intros u H1 H2. now rewrite H1, H2.
  - intros p Hp ->.
    pose proof (loading_iff_uninitialized p Hp) as Hl.
    pose proof (effect_dead p Hp) as Hdead. unfold effect in Hdead.
    split; [rewrite Hdead; now destruct (effectRuns _ _)|].
    unfold useAuth in *. cbn in *. split.
    + intros H1 H2. rewrite H1, H2 in Hl. discriminate.
    + intros u Hu. rewrite Hl.
      destruct (initialized (authState p)); [|discriminate].
      cbn. now rewrite Hu.
Qed.

Lemma guard_evaluation_witness :
  let p := run [InitialFetchSettled (Threw (ErrorObject "invalid JWT"))] in
  let q := run [InitialFetchSettled (GotUser (Some {| user_id := "u1" |}))] in
  reachable q /\
  AuthGuard.AuthGuard None (authState p) = (Nothing, []) /\
  AuthGuard.AuthGuard None (authState mount) = (Spinner, []) /\
  fst (AuthGuard.AuthGuard None (authState q)) = Children.
Proof.
  intros p q.
  assert (Hq : reachable q) by apply reachable_run.
  split; [exact Hq|].
  destruct (guard_evaluation None (authState p)) as (H1 & _).
  destruct (guard_evaluation None (authState mount)) as (_ & H2 & _).
  destruct (guard_evaluation None (authState q)) as (_ & _ & _ & H4).
  destruct (H1 eq_refl eq_refl eq_refl) as [Hn Ho].
  destruct (H2 eq_refl) as [Ho2 Hn2].
  destruct (H4 q Hq eq_refl) as (_ & _ & H5).
  split; [|split].
  - apply injective_projections; [exact Ho|exact Hn].
  - apply injective_projections; [exact Ho2|exact Hn2].
  - exact (H5 {| user_id := "u1" |} eq_refl).
Defined.

(** C7 as stated fails: a session-change notification that arrives while
    [getUser] is still pending marks the state initialized, and its
    identity is exposed before the initial fetch has resolved. *)
Lemma user_exposed_before_initial_fetch :
  let u := {| user_id := "u1" |} in
  let p := run [AuthStateChange (Some {| session_user := u |})] in
  reachable p /\ fetchPending p = true /\
  view_user (useAuth (authState p)) = Some u.
Proof. split; [apply reachable_run|]. split; reflexivity. Qed.

(** C7, amended: the exposed user is null unless [initialized] is true,
    whatever is stored; the provider stores no identity before it marks
    the state initialized; as long as neither the initial fetch has settled
    nor a session change has been delivered, consumers see null; and a
    session change delivered to a mounted provider is exposed at once,
    whether or not the initial fetch has settled. *)
Theorem exposed_user_needs_initialized :
  (forall a, initialized a = false -> view_user (useAuth a) = None) /\
  (forall p, reachable p ->
     (is_Some (view_user (useAuth (authState p))) -> initialized (authState p) = true) /\
     (initialized (authState p) = false -> user (authState p) = None)) /\
  (forall ns, forallb quiet ns = true ->
     view_user (useAuth (authState (run ns))) = None) /\
  (forall p session, reachable p -> mounted p = true ->
     view_user (useAuth (authState (deliver p (AuthStateChange session))))
     = session_user <$> session).
Proof.
  split; [|split; [|split]].
  - intros a Ha. unfold useAuth. simpl. now rewrite Ha.
  - intros p Hp. split.
    + unfold useAuth. simpl.
      destruct (initialized (authState p)); [reflexivity|].
      intros [? ?]. discriminate.
    + now apply user_stored_initialized.
  - intros ns Hq. now rewrite (quiet_run ns Hq).
  - intros p session _ Hm. simpl. now rewrite Hm.
Qed.

Lemma exposed_user_needs_initialized_witness :
  view_user (useAuth {| user := Some {| user_id := "u1" |}; loading := true;
                        initialized := false; error := None |}) = None /\
  view_user (useAuth (authState (run [Cleanup]))) = None /\
  view_user (useAuth (authState (deliver mount (AuthStateChange None)))) = None.
Proof.
  destruct exposed_user_needs_initialized as (H1 & _ & H3 & H4).
  split; [apply H1; reflexivity|].
  split; [apply (H3 [Cleanup]); reflexivity|].
  apply (H4 mount None); [apply reach_mount | reflexivity].
Defined.

End AuthFacts.

(** * The handler monad: how the combinators run *)

Ltac run_async :=
  cbv beta iota zeta delta
    [bind ret throw try_catch try_finally setState setRecords setLoading setError
     setEditing setShowForm log issue settle await query invoke];
  cbn [trace ui fst snd].

Section MonadFacts.
Context {R : Type}.
Implicit Types (w : World R) (tr : list Event).

Lemma issue_all_run (cs : list Call) w :
  issue_all cs w
  = ({| trace := trace w ++ map Issued cs; ui := ui w |}, Resolved tt).
Proof.
  revert w. induction cs as [|c cs IH]; intros [tr st]; simpl.
  - now rewrite app_nil_r.
  - unfold bind at 1. unfold issue, log. simpl. rewrite IH. simpl.
    now rewrite <- app_assoc.
Qed.

Lemma settle_all_run {X A} (mk : X -> Call) (answer : list Event -> X -> Outcome A)
    (xs : list X) w :
  settle_all mk answer xs w
  = ({| trace := trace w ++ fst (settlements mk answer (trace w) xs); ui := ui w |},
     snd (settlements mk answer (trace w) xs)).
Proof.
  revert w. induction xs as [|x xs IH]; intros [tr st]; simpl.
  - unfold ret. now rewrite app_nil_r.
  - unfold bind at 1. unfold await, bind at 1, settle. simpl.
    destruct (answer tr x) as [a|e]; simpl.
    + unfold ret at 1. unfold bind at 1. rewrite IH. simpl.
      rewrite <- app_assoc. simpl.
      destruct (snd (settlements mk answer (tr ++ [Settled (mk x) true]) xs));
        reflexivity.
    + reflexivity.
Qed.

Lemma Promise_all_run {X A} (mk : X -> Call) (answer : list Event -> X -> Outcome A)
    (xs : list X) w :
  let issued := map (fun x => Issued (mk x)) xs in
  let s := settlements mk answer (trace w ++ issued) xs in
  Promise_all mk answer xs w
  = ({| trace := trace w ++ issued ++ fst s; ui := ui w |}, snd s).
Proof.
  unfold Promise_all, bind. rewrite issue_all_run, settle_all_run. simpl.
  rewrite map_map. now rewrite <- app_assoc.
Qed.

(** Every event of [settlements] is the settlement of one of the calls. *)
Lemma settlements_events {X A} (mk : X -> Call) (answer : list Event -> X -> Outcome A)
    xs tr e :
  In e (fst (settlements mk answer tr xs)) ->
  exists x ok, In x xs /\ e = Settled (mk x) ok.
Proof.
  revert tr. induction xs as [|x xs IH]; intros tr; simpl; [tauto|].
  destruct (answer tr x) as [a|m]; simpl.
  - intros [<-|Hin].
    + exists x, true. auto.
    + destruct (IH _ Hin) as (y & ok & Hy & ->). exists y, ok. auto.
  - intros [<-|[]]. exists x, false. auto.
Qed.

(** When [Promise.all] resolves, every call resolved: one value per call. *)
Lemma settlements_resolved {X A} (mk : X -> Call) (answer : list Event -> X -> Outcome A)
    xs tr l :
  snd (settlements mk answer tr xs) = Resolved l ->
  fst (settlements mk answer tr xs) = map (fun x => Settled (mk x) true) xs
  /\ length l = length xs.
Proof.
  revert tr l. induction xs as [|x xs IH]; intros tr l; simpl.
  - intros [= <-]. auto.
  - destruct (answer tr x) as [a|m]; simpl; [|discriminate].
    destruct (snd (settlements mk answer (tr ++ [Settled (mk x) true]) xs)) as [l'|m] eqn:E;
      [|discriminate].
    intros [= <-]. destruct (IH _ _ E) as [-> Hlen]. simpl. auto.
Qed.

(** When it rejects, the last event logged is a failed settlement. *)
Lemma settlements_rejected {X A} (mk : X -> Call) (answer : list Event -> X -> Outcome A)
    xs tr m :
  snd (settlements mk answer tr xs) = Rejected m ->
  exists x pre, In x xs /\
    fst (settlements mk answer tr xs) = pre ++ [Settled (mk x) false].
Proof.
  revert tr. induction xs as [|x xs IH]; intros tr; simpl; [discriminate|].
  destruct (answer tr x) as [a|e]; simpl.
  - destruct (snd (settlements mk answer (tr ++ [Settled (mk x) true]) xs)) as [l'|e] eqn:E;
      [discriminate|].
    intros [= ->]. destruct (IH _ E) as (y & pre & Hy & ->).
    exists y, (Settled (mk x) true :: pre). auto.
  - intros _. exists x, []. auto.
Qed.

End MonadFacts.

(** * The record manager: what each handler does *)

Section RecordManagerFacts.
Context {R : Type} `{Row R}.
Variable B : Backend R.
Variable table : string.
Variable bucket : string.
Variable uploadPath : option R -> string.
Implicit Types (tr : list Event) (st : State R).

(** The refetch: one select ordered by [created_at] descending; it
    replaces [records] on success, sets [error] otherwise, and never
    throws. *)
Lemma fetchRecords_run tr st :
  let r := select B (tr ++ [Issued (refetch table)]) table "created_at" false in
  exists st',
    fetchRecords B table {| trace := tr; ui := st |}
    = ({| trace := tr ++ [Issued (refetch table); Settled (refetch table) (rows_ok r)];
          ui := st' |}, Resolved tt)
    /\ loading st' = false
    /\ editing st' = editing st
    /\ showForm st' = showForm st
    /\ match r with
       | RowsData data => records st' = data /\ error st' = error st
       | RowsError e => records st' = records st /\ error st' = Some e
       end.
Proof.
  intros r. unfold fetchRecords, refetch in *. run_async. subst r.
  destruct (select B _ table "created_at" false) as [data|e];
    eexists; (split; [rewrite <- app_assoc; reflexivity|]); simpl; auto.
Qed.

(** [submit]: exactly one write; on an error response nothing else is
    sent, the message is shown and the form stays as it is; otherwise the
    list is refetched and the form is closed. *)
Lemma submit_run tr st0 st rowData :
  let c := submitCall table st rowData in
  let e := submitError B table st rowData (tr ++ [Issued c]) in
  exists st',
    match e with
    | Some m =>
        submit B table st rowData {| trace := tr; ui := st0 |}
        = ({| trace := tr ++ [Issued c; Settled c false]; ui := st' |}, Resolved tt)
        /\ error st' = Some m /\ showForm st' = showForm st0
        /\ editing st' = editing st0
    | None =>
        exists ok,
        submit B table st rowData {| trace := tr; ui := st0 |}
        = ({| trace := tr ++ [Issued c; Settled c true;
                              Issued (refetch table); Settled (refetch table) ok];
              ui := st' |}, Resolved tt)
        /\ showForm st' = false /\ editing st' = None
    end.
Proof.
  intros c e. subst c e. unfold submit, submitCall, submitError.
  destruct (editing st) as [ed|]; run_async.
  - destruct (update B _ table rowData (row_id ed)) as [m|] eqn:E; cbn [no_error].
    + eexists. split; [rewrite <- app_assoc; reflexivity|]. simpl. auto.
    + destruct (fetchRecords_run (tr ++ [Issued (Update table rowData (row_id ed))]
                                    ++ [Settled (Update table rowData (row_id ed)) true]) st0)
        as (st' & Hrun & _).
      rewrite app_assoc in Hrun. rewrite Hrun. cbn [trace ui].
      eexists. eexists. split; [rewrite <- !app_assoc; reflexivity|]. simpl. auto.
  - destruct (insert B _ table [rowData]) as [m|] eqn:E; cbn [no_error].
    + eexists. split; [rewrite <- app_assoc; reflexivity|]. simpl. auto.
    + destruct (fetchRecords_run (tr ++ [Issued (Insert table [rowData])]
                                    ++ [Settled (Insert table [rowData]) true]) st0)
        as (st' & Hrun & _).
      rewrite app_assoc in Hrun. rewrite Hrun. cbn [trace ui].
      eexists. eexists. split; [rewrite <- !app_assoc; reflexivity|]. simpl. auto.
Qed.

(** [handleImageUpload]: every upload is started; only when all of them
    resolved, and a record is being edited, one update with the extended
    [images] follows. *)
Lemma handleImageUpload_run tr st0 st files :
  let issued := map (fun f => Issued (uploadCall bucket uploadPath st f)) files in
  let s := settlements (uploadCall bucket uploadPath st)
             (fun h f => uploadImage B h f bucket (uploadPath (editing st)))
             (tr ++ issued) files in
  match snd s, editing st with
  | Resolved urls, Some ed =>
      let upd := Update table {[ "images" := JArray (row_images ed ++ urls) ]} (row_id ed) in
      exists ok,
      handleImageUpload B table bucket uploadPath st files {| trace := tr; ui := st0 |}
      = ({| trace := tr ++ issued ++ fst s ++ [Issued upd; Settled upd ok];
            ui := {| records := records st0; loading := loading st0; error := error st0;
                     editing := Some (with_images ed (row_images ed ++ urls));
                     showForm := showForm st0 |} |}, Resolved tt)
  | Resolved urls, None =>
      handleImageUpload B table bucket uploadPath st files {| trace := tr; ui := st0 |}
      = ({| trace := tr ++ issued ++ fst s; ui := st0 |}, Resolved tt)
  | Rejected m, _ =>
      handleImageUpload B table bucket uploadPath st files {| trace := tr; ui := st0 |}
      = ({| trace := tr ++ issued ++ fst s;
            ui := {| records := records st0; loading := loading st0; error := Some m;
                     editing := editing st0; showForm := showForm st0 |} |}, Resolved tt)
  end.
Proof.
  intros issued s.
  assert (Hall : Promise_all (uploadCall bucket uploadPath st)
                   (fun h f => uploadImage B h f bucket (uploadPath (editing st)))
                   files {| trace := tr; ui := st0 |}
                 = ({| trace := tr ++ issued ++ fst s; ui := st0 |}, snd s))
    by apply Promise_all_run.
  destruct (snd s) as [urls|m] eqn:Es.
  - destruct (editing st) as [ed|] eqn:Eed.
    + eexists. unfold handleImageUpload, try_catch. unfold bind at 1.
      rewrite Eed, Hall. run_async. rewrite <- !app_assoc. reflexivity.
    + unfold handleImageUpload, try_catch. unfold bind at 1.
      rewrite Eed, Hall. reflexivity.
  - unfold handleImageUpload, try_catch. unfold bind at 1.
    rewrite Hall. reflexivity.
Qed.

(** [handleImageDelete]: the storage delete is awaited first; the update
    that drops the URL is sent only after it resolved. *)
Lemma handleImageDelete_run tr st0 st url :
  let del := DeleteImage bucket url in
  match deleteImage B (tr ++ [Issued del]) bucket url, editing st with
  | Resolved _, Some ed =>
      let kept := List.filter (fun img => negb (String.eqb img url)) (row_images ed) in
      let upd := Update table {[ "images" := JArray kept ]} (row_id ed) in
      exists ok,
      handleImageDelete B table bucket st url {| trace := tr; ui := st0 |}
      = ({| trace := tr ++ [Issued del; Settled del true; Issued upd; Settled upd ok];
            ui := {| records := records st0; loading := loading st0; error := error st0;
                     editing := Some (with_images ed kept);
                     showForm := showForm st0 |} |}, Resolved tt)
  | Resolved _, None =>
      handleImageDelete B table bucket st url {| trace := tr; ui := st0 |}
      = ({| trace := tr ++ [Issued del; Settled del true]; ui := st0 |}, Resolved tt)
  | Rejected m, _ =>
      handleImageDelete B table bucket st url {| trace := tr; ui := st0 |}
      = ({| trace := tr ++ [Issued del; Settled del false];
            ui := {| records := records st0; loading := loading st0; error := Some m;
                     editing := editing st0; showForm := showForm st0 |} |}, Resolved tt)
  end.
Proof.
  intros del. subst del.
  destruct (deleteImage B _ bucket url) as [[]|m] eqn:Edel.
  - destruct (editing st) as [ed|] eqn:Eed.
    + eexists. unfold handleImageDelete. run_async. rewrite Edel, Eed.
      cbn [resolved]. run_async. rewrite <- !app_assoc. reflexivity.
    + unfold handleImageDelete. run_async. rewrite Edel, Eed.
      rewrite <- app_assoc. reflexivity.
  - unfold handleImageDelete. run_async. rewrite Edel.
    rewrite <- app_assoc. reflexivity.
Qed.

Lemma handleDelete_declined tr st0 st id :
  handleDelete B table bucket st false id {| trace := tr; ui := st0 |}
  = ({| trace := tr; ui := st0 |}, Resolved tt).
Proof. reflexivity. Qed.

(** [handleDelete], confirmed, on a listed record: every storage delete is
    started; the record delete follows only when all of them resolved;
    the refetch follows only when the record delete reported no error. *)
Lemma handleDelete_run tr st0 st id property :
  List.find (fun p => String.eqb (row_id p) id) (records st) = Some property ->
  let issued := map (fun u => Issued (DeleteImage bucket u)) (row_images property) in
  let s := settlements (DeleteImage bucket) (fun h u => deleteImage B h bucket u)
             (tr ++ issued) (row_images property) in
  let del := Delete table id in
  match snd s with
  | Rejected m =>
      handleDelete B table bucket st true id {| trace := tr; ui := st0 |}
      = ({| trace := tr ++ issued ++ fst s;
            ui := {| records := records st0; loading := loading st0; error := Some m;
                     editing := editing st0; showForm := showForm st0 |} |}, Resolved tt)
  | Resolved _ =>
      match delete B ((tr ++ issued ++ fst s) ++ [Issued del]) table id with
      | Some m =>
          handleDelete B table bucket st true id {| trace := tr; ui := st0 |}
          = ({| trace := tr ++ issued ++ fst s ++ [Issued del; Settled del false];
                ui := {| records := records st0; loading := loading st0;
                         error := Some m; editing := editing st0;
                         showForm := showForm st0 |} |}, Resolved tt)
      | None =>
          exists ok st',
          handleDelete B table bucket st true id {| trace := tr; ui := st0 |}
          = ({| trace := tr ++ issued ++ fst s
                           ++ [Issued del; Settled del true;
                               Issued (refetch table); Settled (refetch table) ok];
                ui := st' |}, Resolved tt)
      end
  end.
Proof.
  intros Hfind issued s del.
  assert (Hall : Promise_all (DeleteImage bucket)
                   (fun h u => deleteImage B h bucket u)
                   (row_images property) {| trace := tr; ui := st0 |}
                 = ({| trace := tr ++ issued ++ fst s; ui := st0 |}, snd s))
    by apply Promise_all_run.
  destruct (snd s) as [l|m] eqn:Es.
  - destruct (delete B _ table id) as [m|] eqn:Edel.
    + unfold handleDelete. cbn [negb]. rewrite Hfind.
      unfold try_catch. unfold bind at 1. unfold bind at 1. rewrite Hall.
      run_async. fold del. rewrite Edel. cbn [no_error].
      rewrite <- !app_assoc. reflexivity.
    + destruct (fetchRecords_run (((tr ++ issued ++ fst s) ++ [Issued del])
                                    ++ [Settled del true]) st0)
        as (st' & Hrun & _).
      exists (rows_ok (select B ((((tr ++ issued ++ fst s) ++ [Issued del])
                                    ++ [Settled del true]) ++ [Issued (refetch table)])
                         table "created_at" false)), st'.
      unfold handleDelete. cbn [negb]. rewrite Hfind.
      unfold try_catch. unfold bind at 1. unfold bind at 1. rewrite Hall.
      run_async. fold del. rewrite Edel. cbn [no_error].
      rewrite Hrun. rewrite <- !app_assoc. reflexivity.
  - unfold handleDelete. cbn [negb]. rewrite Hfind.
    unfold try_catch. unfold bind at 1. unfold bind at 1. rewrite Hall.
    reflexivity.
Qed.

Lemma handleDelete_unlisted tr st0 st id :
  List.find (fun p => String.eqb (row_id p) id) (records st) = None ->
  trace (fst (handleDelete B table bucket st true id {| trace := tr; ui := st0 |})) = tr.
Proof. intros Hfind. unfold handleDelete. cbn [negb]. now rewrite Hfind. Qed.

End RecordManagerFacts.


(** * Image removal, deletion cascade and image upload *)

Section ImageFlows.
Context {R : Type} `{Row R}.
Variable B : Backend R.
Variable table : string.
Variable bucket : string.
Variable uploadPath : option R -> string.
Implicit Types (tr : list Event) (st : State R).

(** C3: removing URL [url] from the record being edited first issues the
    storage delete and waits for it; only after it resolved is the update
    issued, and the [images] it persists omit [url]; when the storage delete
    fails, the trace ends there, with no update, and the message is shown. *)
Theorem image_remove_is_delete_then_persist tr st0 st url ed :
  editing st = Some ed ->
  let w' := fst (handleImageDelete B table bucket st url {| trace := tr; ui := st0 |}) in
  let del := DeleteImage bucket url in
  let kept := List.filter (fun img => negb (String.eqb img url)) (row_images ed) in
  let upd := Update table {[ "images" := JArray kept ]} (row_id ed) in
  ~ In url kept /\
  match deleteImage B (tr ++ [Issued del]) bucket url with
  | Resolved _ =>
      exists ok,
      trace w' = tr ++ [Issued del; Settled del true; Issued upd; Settled upd ok]
  | Rejected m =>
      trace w' = tr ++ [Issued del; Settled del false] /\ error (ui w') = Some m
  end.
Proof.
  intros Hed w' del kept upd. split.
  - subst kept. rewrite filter_In. intros [_ Hne].
    now rewrite String.eqb_refl in Hne.
  - pose proof (handleImageDelete_run B table bucket tr st0 st url) as Hrun.
    cbv zeta in Hrun. fold del in Hrun. subst w'.
    destruct (deleteImage B (tr ++ [Issued del]) bucket url) as [[]|m].
    + rewrite Hed in Hrun. destruct Hrun as [ok ->]. now exists ok.
    + rewrite Hrun. split; reflexivity.
Qed.

(** C4: a confirmed deletion of a listed record starts one storage delete
    per image URL of the record, all of them before anything else; the
    record delete comes after them (and only when they all resolved); after
    a record delete that reported no error the list is refetched. *)
Theorem delete_cascade_order tr st0 st id property :
  List.find (fun p => String.eqb (row_id p) id) (records st) = Some property ->
  let w' := fst (handleDelete B table bucket st true id {| trace := tr; ui := st0 |}) in
  let del := Delete table id in
  exists settled rest,
    trace w' = tr ++ map (fun u => Issued (DeleteImage bucket u)) (row_images property)
                  ++ settled ++ rest
    /\ (forall e, In e settled ->
          exists u ok, In u (row_images property) /\ e = Settled (DeleteImage bucket u) ok)
    /\ (rest = []
        \/ rest = [Issued del; Settled del false]
        \/ exists ok, rest = [Issued del; Settled del true;
                              Issued (refetch table); Settled (refetch table) ok]).
Proof.
  intros Hfind w' del.
  pose proof (handleDelete_run B table bucket tr st0 st id property Hfind) as Hrun.
  cbv zeta in Hrun. fold del in Hrun. subst w'.
  set (s := settlements _ _ _ _) in *.
  exists (fst s).
  assert (Hs : forall e, In e (fst s) ->
            exists u ok, In u (row_images property) /\ e = Settled (DeleteImage bucket u) ok)
    by (intros e He; exact (settlements_events _ _ _ _ _ He)).
  destruct (snd s) as [l|m].
  - destruct (delete B _ table id) as [m|].
    + exists [Issued del; Settled del false]. rewrite Hrun. auto.
    + destruct Hrun as (ok & st' & ->).
      eexists. split; [reflexivity|]. split; [exact Hs|]. right. right. now exists ok.
  - exists []. rewrite Hrun. cbn [fst trace]. rewrite app_nil_r. auto.
Qed.

(** C5: adding [files] to the record being edited starts exactly one upload
    per file, and nothing else before them; when the uploads return [urls],
    exactly one update of that record follows at once, within the handler,
    and its [images] are the previous ones followed by [urls]; the draft
    gets the same sequence.  (When an upload is rejected, no update is
    sent.) *)
Theorem image_add_persists_immediately tr st0 st files ed :
  editing st = Some ed ->
  let uploads := map (fun f => Issued (uploadCall bucket uploadPath st f)) files in
  let s := settlements (uploadCall bucket uploadPath st)
             (fun h f => uploadImage B h f bucket (uploadPath (editing st)))
             (tr ++ uploads) files in
  let w' := fst (handleImageUpload B table bucket uploadPath st files
                   {| trace := tr; ui := st0 |}) in
  length uploads = length files /\
  (exists evs, trace w' = tr ++ uploads ++ evs /\
     forall f b p, ~ In (Issued (UploadImage f b p)) evs) /\
  (forall urls, snd s = Resolved urls ->
     let upd := Update table {[ "images" := JArray (row_images ed ++ urls) ]} (row_id ed) in
     length urls = length files /\
     (exists ok,
        trace w' = tr ++ uploads
                      ++ map (fun f => Settled (uploadCall bucket uploadPath st f) true) files
                      ++ [Issued upd; Settled upd ok]) /\
     (forall u, In u (row_images ed) -> In u (row_images ed ++ urls)) /\
     (forall u, In u urls -> In u (row_images ed ++ urls)) /\
     editing (ui w') = Some (with_images ed (row_images ed ++ urls))) /\
  (forall m, snd s = Rejected m ->
     trace w' = tr ++ uploads ++ fst s /\
     (forall c, ~ In (Issued c) (fst s)) /\
     error (ui w') = Some m).
Proof.
  intros Hed uploads s w'.
  pose proof (handleImageUpload_run B table bucket uploadPath tr st0 st files) as Hrun.
  cbv zeta in Hrun. fold uploads in Hrun. fold s in Hrun.
  assert (Hs : forall c, ~ In (Issued c) (fst s)).
  { intros c Hc. destruct (settlements_events _ _ _ _ _ Hc) as (? & ? & _ & [=]). }
  split; [subst uploads; now rewrite length_map|].
  split; [|split].
  - destruct (snd s) as [urls|m].
    + rewrite Hed in Hrun. destruct Hrun as [ok Hrun].
      eexists. subst w'. rewrite Hrun. split; [reflexivity|].
      intros f b p [Hin|Hin]%in_app_or; [now apply (Hs _ Hin)|].
      destruct Hin as [[=]|[[=]|[]]].
    + exists (fst s). subst w'. rewrite Hrun. split; [reflexivity|]. intros f b p. apply Hs.
  - intros urls Hurls upd.
    destruct (settlements_resolved _ _ _ _ _ Hurls) as [Hev Hlen]. fold s in Hev.
    rewrite Hurls, Hed in Hrun. destruct Hrun as [ok Hrun].
    split; [exact Hlen|].
    subst w'. rewrite Hrun. cbn [fst trace ui editing].
    split; [|split; [|split; [|reflexivity]]].
    + exists ok. now rewrite Hev.
    + intros u Hu. apply in_or_app. now left.
    + intros u Hu. apply in_or_app. now right.
  - intros m Hm. rewrite Hm in Hrun. subst w'. rewrite Hrun. auto.
Qed.

End ImageFlows.

(** * The object store of the specification *)

Lemma replay_subseteq (store : Storage.Store) (tr : list Event) :
  Storage.replay store tr ⊆ store.
Proof.
  revert store. induction tr as [|e tr IH]; intros store; simpl; [done|].
  destruct e as [c|c ok]; [apply IH|].
  destruct c; try apply IH. destruct ok; [|apply IH].
  etrans; [apply IH|]. unfold Storage.remove.
  case_decide; simpl; [apply subseteq_difference_l|]; done.
Qed.

(** An object that is not in the store is reported absent whenever its
    removal is asked for. *)
Lemma absent_reported (store : Storage.Store) (tr : list Event) (bucket url : string) :
  (bucket, url) ∉ store ->
  Storage.report store tr bucket url = Storage.AlreadyAbsent.
Proof.
  intros Habs. unfold Storage.report, Storage.remove.
  case_decide as Hin; [|reflexivity].
  exfalso. apply Habs. now apply (replay_subseteq store tr).
Qed.

Lemma settlements_all_resolved {X A} (mk : X -> Call)
    (answer : list Event -> X -> Outcome A) (xs : list X) (tr : list Event) :
  (forall h x, In x xs -> exists a, answer h x = Resolved a) ->
  exists l, snd (settlements mk answer tr xs) = Resolved l.
Proof.
  revert tr. induction xs as [|x xs IH]; intros tr Hall; simpl.
  - now exists [].
  - destruct (Hall tr x (or_introl eq_refl)) as [a ->]. simpl.
    destruct (IH (tr ++ [Settled (mk x) true])) as [l ->].
    + intros h y Hy. apply Hall. now right.
    + now exists (a :: l).
Qed.

(** C6: with the object store of the specification, whose [deleteImage]
    resolves on an object that is already absent, a confirmed deletion of a
    listed record one of whose images is no longer stored is not aborted:
    that image's storage delete reports the object absent and settles as
    resolved, and the record delete is issued after the storage deletes. *)
Theorem absent_image_does_not_abort_cascade {R : Type} `{Row R} (B : Backend R)
    (store : Storage.Store) (unreachable : list Event -> option string)
    (table bucket : string) (tr : list Event) (st0 st : State R)
    (id : string) (property : R) (u : string) :
  List.find (fun p => String.eqb (row_id p) id) (records st) = Some property ->
  In u (row_images property) ->
  (bucket, u) ∉ store ->
  (forall h, unreachable h = None) ->
  let w' := fst (handleDelete (Storage.backend store unreachable B) table bucket st true id
                   {| trace := tr; ui := st0 |}) in
  (forall h, Storage.report store h bucket u = Storage.AlreadyAbsent) /\
  In (Settled (DeleteImage bucket u) true) (trace w') /\
  exists rest,
    trace w' = tr ++ map (fun x => Issued (DeleteImage bucket x)) (row_images property)
                  ++ map (fun x => Settled (DeleteImage bucket x) true) (row_images property)
                  ++ Issued (Delete table id) :: rest.
Proof.
  intros Hfind Hu Habs Hup w'.
  split; [intros h; now apply absent_reported|].
  pose proof (handleDelete_run (Storage.backend store unreachable B) table bucket
                tr st0 st id property Hfind) as Hrun.
  cbv zeta in Hrun.
  set (s := settlements _ _ _ _) in *.
  destruct (settlements_all_resolved (DeleteImage bucket)
              (fun h x => deleteImage (Storage.backend store unreachable B) h bucket x)
              (row_images property)
              (tr ++ map (fun x => Issued (DeleteImage bucket x)) (row_images property)))
    as [l Hl].
  { intros h x _. exists tt. simpl. unfold Storage.deleteImage. rewrite Hup.
    now destruct (Storage.report store h bucket x). }
  fold s in Hl. destruct (settlements_resolved _ _ _ _ _ Hl) as [Hev _]. fold s in Hev.
  rewrite Hl in Hrun.
  assert (Hgoal : exists rest,
            trace w' = tr ++ map (fun x => Issued (DeleteImage bucket x)) (row_images property)
                          ++ map (fun x => Settled (DeleteImage bucket x) true)
                               (row_images property)
                          ++ Issued (Delete table id) :: rest).
  { subst w'. destruct (delete _ _ table id) as [m|].
    - rewrite Hrun. rewrite Hev. eexists. reflexivity.
    - destruct Hrun as (ok & st' & ->). rewrite Hev. eexists. reflexivity. }
  split; [|exact Hgoal].
  destruct Hgoal as [rest ->].
  apply in_or_app. right. apply in_or_app. right. apply in_or_app. left.
  apply in_map_iff. now exists u.
Qed.

(** * Image operations touch nothing but [images] *)

(** C10: the only record write an image-add or an image-remove sends is an
    update whose values are the single column [images], on the record being
    edited; in the store, a partial update leaves every other column of the
    row as it was; in the component, only the draft changes, and of the
    draft only [images]. *)
Theorem image_ops_send_images_only {R : Type} `{Row R} (B : Backend R)
    (table bucket : string) (uploadPath : option R -> string)
    (tr : list Event) (st0 st : State R) :
  let only_images (c : Call) :=
    exists ed l, editing st = Some ed /\
                 c = Update table {[ "images" := JArray l ]} (row_id ed) in
  let draft_only (w' : World R) :=
    records (ui w') = records st0 /\ loading (ui w') = loading st0 /\
    showForm (ui w') = showForm st0 /\
    (editing (ui w') = editing st0 \/
     exists ed l, editing st = Some ed /\ editing (ui w') = Some (with_images ed l)) in
  (forall files,
     let w' := fst (handleImageUpload B table bucket uploadPath st files
                      {| trace := tr; ui := st0 |}) in
     draft_only w' /\
     exists evs, trace w' = tr ++ evs /\
       forall c, In (Issued c) evs ->
         (exists f, c = uploadCall bucket uploadPath st f) \/ only_images c) /\
  (forall url,
     let w' := fst (handleImageDelete B table bucket st url {| trace := tr; ui := st0 |}) in
     draft_only w' /\
     exists evs, trace w' = tr ++ evs /\
       forall c, In (Issued c) evs -> c = DeleteImage bucket url \/ only_images c) /\
  (forall l, dom ({[ "images" := JArray l ]} : Payload) = {[ "images" ]}) /\
  (forall l (row : Payload) column,
     column <> "images" -> patch {[ "images" := JArray l ]} row !! column = row !! column) /\
  (forall (p : PropertiesManager.Property) l,
     let p' := with_images p l in
     PropertiesManager.id p' = PropertiesManager.id p /\
     PropertiesManager.builder_name p' = PropertiesManager.builder_name p /\
     PropertiesManager.project p' = PropertiesManager.project p /\
     PropertiesManager.location p' = PropertiesManager.location p /\
     PropertiesManager.size p' = PropertiesManager.size p /\
     PropertiesManager.price p' = PropertiesManager.price p) /\
  (forall (p : PlotsManager.Plot) l,
     let p' := with_images p l in
     PlotsManager.id p' = PlotsManager.id p /\
     PlotsManager.builder_name p' = PlotsManager.builder_name p /\
     PlotsManager.project p' = PlotsManager.project p /\
     PlotsManager.location p' = PlotsManager.location p /\
     PlotsManager.price_per_sqft p' = PlotsManager.price_per_sqft p /\
     PlotsManager.total_price p' = PlotsManager.total_price p).
Proof.
  intros only_images draft_only.
  split; [|split; [|split; [|split; [|split]]]].
  - intros files w'.
    pose proof (handleImageUpload_run B table bucket uploadPath tr st0 st files) as Hrun.
    cbv zeta in Hrun.
    set (s := settlements _ _ _ _) in *.
    assert (Hs : forall c, ~ In (Issued c) (fst s)).
    { intros c Hc. destruct (settlements_events _ _ _ _ _ Hc) as (? & ? & _ & [=]). }
    assert (Hup : forall c evs,
              (forall c', In (Issued c') evs -> only_images c') ->
              In (Issued c) (map (fun f => Issued (uploadCall bucket uploadPath st f)) files
                             ++ fst s ++ evs) ->
              (exists f, c = uploadCall bucket uploadPath st f) \/ only_images c).
    { intros c evs Hevs [Hin|[Hin|Hin]%in_app_or]%in_app_or.
      - left. apply in_map_iff in Hin as (f & [= <-] & _). now exists f.
      - now destruct (Hs _ Hin).
      - right. now apply Hevs. }
    subst w' draft_only. cbv beta.
    destruct (snd s) as [urls|m]; [destruct (editing st) as [ed|] eqn:Eed|].
    + destruct Hrun as [ok ->]. cbn [fst trace ui records loading showForm editing].
      split; [repeat split; right; eauto|].
      eexists. split; [reflexivity|]. intros c Hc. eapply Hup; [|exact Hc].
      intros c' [[= <-]|[[=]|[]]]. unfold only_images. eauto.
    + rewrite Hrun. cbn [fst trace ui]. split; [repeat split; now left|].
      exists (map (fun f => Issued (uploadCall bucket uploadPath st f)) files ++ fst s ++ []).
      split; [now rewrite app_nil_r|]. intros c Hc. eapply Hup; [|exact Hc].
      intros c' [].
    + rewrite Hrun. cbn [fst trace ui records loading showForm editing].
      split; [repeat split; now left|].
      exists (map (fun f => Issued (uploadCall bucket uploadPath st f)) files ++ fst s ++ []).
      split; [now rewrite app_nil_r|]. intros c Hc. eapply Hup; [|exact Hc].
      intros c' [].
  - intros url w'.
    pose proof (handleImageDelete_run B table bucket tr st0 st url) as Hrun.
    cbv zeta in Hrun. subst w' draft_only. cbv beta.
    destruct (deleteImage B _ bucket url) as [[]|m];
      [destruct (editing st) as [ed|] eqn:Eed|].
    + destruct Hrun as [ok ->]. cbn [fst trace ui records loading showForm editing].
      split; [repeat split; right; eauto|].
      eexists. split; [reflexivity|].
      intros c [[= <-]|[[=]|[[= <-]|[[=]|[]]]]]; [now left|right].
      unfold only_images. eauto.
    + rewrite Hrun. cbn [fst trace ui]. split; [repeat split; now left|].
      eexists. split; [reflexivity|].
      intros c [[= <-]|[[=]|[]]]. now left.
    + rewrite Hrun. cbn [fst trace ui records loading showForm editing].
      split; [repeat split; now left|].
      eexists. split; [reflexivity|].
      intros c [[= <-]|[[=]|[]]]. now left.
  - intros l. apply dom_singleton_L.
  - intros l row column Hne. unfold patch.
    rewrite lookup_union_r; [reflexivity|].
    apply lookup_singleton_ne. congruence.
  - intros p l. simpl. repeat split.
  - intros p l. simpl. repeat split.
Qed.

(** * Form submission *)

Section Submission.
Context {R : Type} `{Row R}.
Variable B : Backend R.
Variable table : string.
Implicit Types (tr : list Event) (st : State R).

(** [setError(null)] and then [submit]: what both [handleSubmit]s are. *)
Lemma cleared_submit_run tr st0 st rowData :
  let c := submitCall table st rowData in
  let e := submitError B table st rowData (tr ++ [Issued c]) in
  let w' := fst ((setError None ;; submit B table st rowData) {| trace := tr; ui := st0 |}) in
  match e with
  | Some m =>
      trace w' = tr ++ [Issued c; Settled c false]
      /\ error (ui w') = Some m /\ showForm (ui w') = showForm st0
      /\ editing (ui w') = editing st0
  | None =>
      (exists ok, trace w' = tr ++ [Issued c; Settled c true;
                                    Issued (refetch table); Settled (refetch table) ok])
      /\ showForm (ui w') = false /\ editing (ui w') = None
  end.
Proof.
  intros c e w'.
  assert (E : (setError None ;; submit B table st rowData) {| trace := tr; ui := st0 |}
              = submit B table st rowData
                  {| trace := tr;
                     ui := {| records := records st0; loading := loading st0; error := None;
                              editing := editing st0; showForm := showForm st0 |} |})
    by reflexivity.
  subst w'. rewrite E. clear E.
  destruct (submit_run B table tr
              {| records := records st0; loading := loading st0; error := None;
                 editing := editing st0; showForm := showForm st0 |} st rowData)
    as (st' & Hrun).
  cbv zeta in Hrun. fold c in Hrun. fold e in Hrun.
  destruct e as [m|].
  - destruct Hrun as (-> & ? & ? & ?). cbn [fst trace ui]. auto.
  - destruct Hrun as (ok & -> & ? & ?). cbn [fst trace ui]. eauto.
Qed.

End Submission.

(** X25: [handleSubmit] has no validation step of its own.  Whatever form
    entries it is called with, create or edit, plots or properties, it
    sends exactly one write (an insert when creating, an update of the
    edited record otherwise), and the only other call that can follow is
    the refetch; the numeric columns of that write are [parseFloat] of the
    entries. *)
Theorem submit_forwards_parsed_numbers
    (B : Backend PropertiesManager.Property) (type : PropertiesManager.PropertyType)
    (BP : Backend PlotsManager.Plot)
    (tr : list Event) (fd : FormData)
    (st0 st : State PropertiesManager.Property) (stP0 stP : State PlotsManager.Plot) :
  let table := PropertiesManager.tableName type in
  let row := PropertiesManager.propertyData st fd in
  let c := match editing st with
           | Some ed => Update table row (PropertiesManager.id ed)
           | None => Insert table [row]
           end in
  let w := fst (PropertiesManager.handleSubmit B type st fd {| trace := tr; ui := st0 |}) in
  let plotRow := PlotsManager.plotData stP fd in
  let cP := match editing stP with
            | Some ed => Update "plots" plotRow (PlotsManager.id ed)
            | None => Insert "plots" [plotRow]
            end in
  let wP := fst (PlotsManager.handleSubmit BP stP fd {| trace := tr; ui := stP0 |}) in
  let number name := JNum (JS.parseFloat (ToString (FormData_get name fd))) in
  (exists ok rest, trace w = tr ++ Issued c :: Settled c ok :: rest /\
     forall c', In (Issued c') rest -> c' = refetch table) /\
  row !! "price" = Some (number "price") /\
  (row !! "price" = Some (JNum NaN)
   <-> JS.parseFloat (ToString (FormData_get "price" fd)) = NaN) /\
  (exists ok rest, trace wP = tr ++ Issued cP :: Settled cP ok :: rest /\
     forall c', In (Issued c') rest -> c' = refetch "plots") /\
  plotRow !! "price_per_sqft" = Some (number "price_per_sqft") /\
  plotRow !! "total_price" = Some (number "total_price").
Proof.
  intros table row c w plotRow cP wP number.
  assert (Hprice : row !! "price" = Some (number "price")) by reflexivity.
  split; [|split; [exact Hprice|split; [|split; [|split; reflexivity]]]].
  - pose proof (cleared_submit_run B table tr st0 st row) as Hrun.
    cbv zeta in Hrun.
    destruct (submitError B table st row _) as [m|].
    + destruct Hrun as (Htr & _). exists false, []. split; [exact Htr|]. intros c' [].
    + destruct Hrun as ((ok & Htr) & _). eexists true, _. split; [exact Htr|].
      intros c' [[= <-]|[[=]|[]]]. reflexivity.
  - rewrite Hprice. subst number. cbv beta. split; congruence.
  - pose proof (cleared_submit_run BP "plots" tr stP0 stP plotRow) as Hrun.
    cbv zeta in Hrun.
    destruct (submitError BP "plots" stP plotRow _) as [m|].
    + destruct Hrun as (Htr & _). exists false, []. split; [exact Htr|]. intros c' [].
    + destruct Hrun as ((ok & Htr) & _). eexists true, _. split; [exact Htr|].
      intros c' [[= <-]|[[=]|[]]]. reflexivity.
Qed.




(** * Image sequences and duplicates *)

(** X24: an image-add has no filtering step: it leaves in the draft, and
    sends to the store, the draft's previous sequence followed by the
    returned URLs as they came; that sequence is free of duplicates exactly
    when the previous one was, the returned URLs are pairwise distinct, and
    none of them was already there. *)
Theorem image_add_appends_verbatim {R : Type} `{Row R} (B : Backend R)
    (table bucket : string) (uploadPath : option R -> string)
    (tr : list Event) (st0 st : State R) (files : list File) (ed : R)
    (urls : list string) :
  editing st = Some ed ->
  snd (settlements (uploadCall bucket uploadPath st)
         (fun h f => uploadImage B h f bucket (uploadPath (editing st)))
         (tr ++ map (fun f => Issued (uploadCall bucket uploadPath st f)) files) files)
  = Resolved urls ->
  let w' := fst (handleImageUpload B table bucket uploadPath st files
                   {| trace := tr; ui := st0 |}) in
  (exists p, editing (ui w') = Some p /\ row_images p = row_images ed ++ urls) /\
  In (Issued (Update table {[ "images" := JArray (row_images ed ++ urls) ]} (row_id ed)))
     (trace w') /\
  (NoDup (row_images ed ++ urls)
   <-> NoDup (row_images ed) /\ (forall u, u ∈ row_images ed -> u ∉ urls) /\ NoDup urls).
Proof.
  intros Hed Hurls w'.
  pose proof (handleImageUpload_run B table bucket uploadPath tr st0 st files) as Hrun.
  cbv zeta in Hrun. rewrite Hurls in Hrun. rewrite Hed in Hrun.
  destruct Hrun as [ok Hrun]. subst w'. rewrite Hrun. cbn [fst trace ui editing].
  split; [|split].
  - eexists. split; [reflexivity|]. apply row_images_with.
  - apply in_or_app. right. apply in_or_app. right. apply in_or_app. right. now left.
  - apply NoDup_app.
Qed.

Lemma image_add_appends_verbatim_witness :
  let st := Samples.blank [Samples.R1] (Some Samples.R1) in
  let a := Samples.publicUrl "properties" "resale/R1" "a.png" in
  let b := Samples.publicUrl "properties" "resale/R1" "b.png" in
  let w := fst (PropertiesManager.handleImageUpload (Samples.accepting [Samples.R1])
                  PropertiesManager.resale st [Samples.photo2] (Samples.start st)) in
  editing st = Some Samples.R1 /\
  exists p, editing (ui w) = Some p /\ row_images p = [a; b].
Proof.
  split; [reflexivity|].
  exact (proj1 (image_add_appends_verbatim (Samples.accepting [Samples.R1])
                  "resale_properties" "properties"
                  (fun ed => ("resale" ++ "/" ++ id_or_new ed)%string)
                  [] (Samples.blank [Samples.R1] (Some Samples.R1))
                  (Samples.blank [Samples.R1] (Some Samples.R1))
                  [Samples.photo2] Samples.R1
                  [Samples.publicUrl "properties" "resale/R1" "b.png"]
                  eq_refl eq_refl)).
Defined.

(** * The claims on sample runs *)

Lemma image_remove_is_delete_then_persist_witness :
  let st := Samples.blank [Samples.R1] (Some Samples.R1) in
  let url := Samples.publicUrl "properties" "resale/R1" "a.png" in
  let del := DeleteImage "properties" url in
  let upd := Update "resale_properties" {[ "images" := JArray [] ]} "R1" in
  let w := fst (PropertiesManager.handleImageDelete (Samples.accepting [Samples.R1])
                  PropertiesManager.resale st url (Samples.start st)) in
  editing st = Some Samples.R1 /\
  exists ok, trace w = [Issued del; Settled del true; Issued upd; Settled upd ok].
Proof.
  split; [reflexivity|].
  exact (proj2 (image_remove_is_delete_then_persist (Samples.accepting [Samples.R1])
                  "resale_properties" "properties" []
                  (Samples.blank [Samples.R1] (Some Samples.R1))
                  (Samples.blank [Samples.R1] (Some Samples.R1))
                  (Samples.publicUrl "properties" "resale/R1" "a.png")
                  Samples.R1 eq_refl)).
Defined.

Lemma delete_cascade_order_witness :
  let st := Samples.blank [Samples.P1] None in
  let a := Samples.publicUrl "plots" "P1" "a.png" in
  let b := Samples.publicUrl "plots" "P1" "b.png" in
  let w := fst (PlotsManager.handleDelete (Samples.accepting []) st true "P1"
                  (Samples.start st)) in
  List.find (fun p => String.eqb (row_id p) "P1") (records st) = Some Samples.P1 /\
  exists settled rest,
    trace w = [Issued (DeleteImage "plots" a); Issued (DeleteImage "plots" b)]
              ++ settled ++ rest.
Proof.
  intros st a b w.
  assert (Hfind : List.find (fun p => String.eqb (row_id p) "P1") (records st)
                  = Some Samples.P1) by reflexivity.
  split; [exact Hfind|].
  destruct (delete_cascade_order (Samples.accepting []) "plots" "plots" []
              st st "P1" Samples.P1 Hfind)
    as (settled & rest & Htr & _).
  exists settled, rest. exact Htr.
Defined.

Lemma image_add_persists_immediately_witness :
  let st := Samples.blank [Samples.R1] (Some Samples.R1) in
  let a := Samples.publicUrl "properties" "resale/R1" "a.png" in
  let b := Samples.publicUrl "properties" "resale/R1" "b.png" in
  let up := UploadImage Samples.photo2 "properties" "resale/R1" in
  let upd := Update "resale_properties" {[ "images" := JArray [a; b] ]} "R1" in
  let w := fst (PropertiesManager.handleImageUpload (Samples.accepting [Samples.R1])
                  PropertiesManager.resale st [Samples.photo2] (Samples.start st)) in
  editing st = Some Samples.R1 /\
  exists ok, trace w = [Issued up; Settled up true; Issued upd; Settled upd ok].
Proof.
  split; [reflexivity|].
  destruct (image_add_persists_immediately (Samples.accepting [Samples.R1])
              "resale_properties" "properties"
              (fun ed => ("resale" ++ "/" ++ id_or_new ed)%string)
              [] (Samples.blank [Samples.R1] (Some Samples.R1))
              (Samples.blank [Samples.R1] (Some Samples.R1))
              [Samples.photo2] Samples.R1 eq_refl)
    as (_ & _ & Hok & _).
  destruct (Hok [Samples.publicUrl "properties" "resale/R1" "b.png"] eq_refl)
    as (_ & Htr & _).
  exact Htr.
Defined.

Lemma absent_image_does_not_abort_cascade_witness :
  let st := Samples.blank [Samples.R1] None in
  let u := Samples.publicUrl "properties" "resale/R1" "a.png" in
  let B := Storage.backend ∅ (fun _ => None) (Samples.accepting [Samples.R1]) in
  let w := fst (PropertiesManager.handleDelete B PropertiesManager.resale st true "R1"
                  (Samples.start st)) in
  (("properties", u) ∉ (∅ : Storage.Store)) /\
  Storage.report ∅ [Issued (DeleteImage "properties" u)] "properties" u
  = Storage.AlreadyAbsent /\
  exists rest,
    trace w = [Issued (DeleteImage "properties" u); Settled (DeleteImage "properties" u) true;
               Issued (Delete "resale_properties" "R1")] ++ rest.
Proof.
  intros st u B w.
  assert (Habs : ("properties", u) ∉ (∅ : Storage.Store)) by apply not_elem_of_empty.
  split; [exact Habs|].
  assert (Hfind : List.find (fun p => String.eqb (row_id p) "R1") (records st)
                  = Some Samples.R1) by reflexivity.
  destruct (absent_image_does_not_abort_cascade (Samples.accepting [Samples.R1]) ∅
              (fun _ => None) "resale_properties" "properties" []
              st st "R1" Samples.R1 u Hfind (or_introl eq_refl) Habs (fun _ => eq_refl))
    as (Hrep & _ & Htr).
  split; [apply Hrep|exact Htr].
Defined.


(** * More on the session provider and the guard *)

Module SessionLifecycle.
Import UseAuth AuthGuard.

Lemma unmounted_deliver p n :
  mounted p = false ->
  authState (deliver p n) = authState p /\ mounted (deliver p n) = false.
Proof.
  intros Hm. destruct n as [o|session|]; simpl; rewrite ?Hm.
  - destruct (fetchPending p); simpl; rewrite ?Hm; auto.
  - auto.
  - auto.
Qed.

Lemma unmounted_stays p ns :
  mounted p = false ->
  authState (fold_left deliver ns p) = authState p
  /\ mounted (fold_left deliver ns p) = false.
Proof.
  revert p. induction ns as [|n ns IH]; intros p Hm; simpl; [auto|].
  destruct (unmounted_deliver p n Hm) as [Ha Hm'].
  destruct (IH _ Hm') as [IHa IHm]. rewrite IHa. auto.
Qed.

(** X1: once the effect's cleanup has run, nothing that arrives later is
    written: a late [getUser] result and later session changes leave the
    hook's state exactly as it was at cleanup. *)
Theorem teardown_freezes_state (before after : list Notification) :
  authState (run (before ++ Cleanup :: after)) = authState (run before).
Proof.
  unfold run. rewrite fold_left_app. simpl.
  fold (run before).
  apply (unmounted_stays
           {| authState := authState (run before); mounted := false;
              fetchPending := fetchPending (run before) |} after eq_refl).
Qed.

Lemma initialized_deliver p n :
  initialized (authState p) = true -> loading (authState p) = false ->
  initialized (authState (deliver p n)) = true
  /\ loading (authState (deliver p n)) = false.
Proof.
  intros Hi Hl. destruct n as [o|session|]; simpl.
  - destruct (fetchPending p); [|auto]. simpl.
    destruct (mounted p); [|auto]. now destruct o.
  - destruct (mounted p); auto.
  - auto.
Qed.

(** X2: the lifecycle only moves forward: once the state is initialized and
    no longer loading, no sequence of notifications makes it uninitialized
    or loading again. *)
Theorem lifecycle_never_goes_back (p : Provider) (ns : list Notification) :
  initialized (authState p) = true ->
  loading (authState p) = false ->
  initialized (authState (fold_left deliver ns p)) = true
  /\ loading (authState (fold_left deliver ns p)) = false.
Proof.
  revert p. induction ns as [|n ns IH]; intros p Hi Hl; simpl; [auto|].
  destruct (initialized_deliver p n Hi Hl) as [Hi' Hl']. now apply IH.
Qed.

Lemma lifecycle_never_goes_back_witness :
  let p := run [AuthStateChange None] in
  let ns := [InitialFetchSettled (Threw NotAnError); Cleanup;
             AuthStateChange (Some {| session_user := {| user_id := "u1" |} |})] in
  initialized (authState p) = true /\
  initialized (authState (fold_left deliver ns p)) = true /\
  loading (authState (fold_left deliver ns p)) = false.
Proof.
  split; [reflexivity|].
  exact (lifecycle_never_goes_back
           (run [AuthStateChange None])
           [InitialFetchSettled (Threw NotAnError); Cleanup;
            AuthStateChange (Some {| session_user := {| user_id := "u1" |} |})]
           eq_refl eq_refl).
Defined.

Lemma settled_error_deliver p n :
  fetchPending p = false ->
  error (authState (deliver p n)) = error (authState p)
  /\ fetchPending (deliver p n) = false.
Proof.
  intros Hf. destruct n as [o|session|]; simpl; rewrite ?Hf; auto.
  destruct (mounted p); auto.
Qed.

Lemma pending_no_error p :
  reachable p -> fetchPending p = true -> error (authState p) = None.
Proof.
  induction 1 as [|p n _ IH]; [reflexivity|].
  destruct n as [o|session|]; simpl.
  - destruct (fetchPending p) eqn:E; simpl; [discriminate|]. rewrite E. discriminate.
  - destruct (mounted p); simpl; exact IH.
  - exact IH.
Qed.

(** X3: the [error] field is written by the initial fetch only.  While the
    fetch is pending it is null; once the fetch has settled, no later
    notification changes it, so the message of a failed initial fetch stays
    even after a session change brings an identity. *)
Theorem error_comes_from_initial_fetch_only (p : Provider) :
  reachable p ->
  (fetchPending p = true -> error (authState p) = None) /\
  (fetchPending p = false ->
     forall ns, error (authState (fold_left deliver ns p)) = error (authState p)).
Proof.
  intros Hp. split; [now apply pending_no_error|].
  intros Hf ns. clear Hp. revert p Hf.
  induction ns as [|n ns IH]; intros p Hf; simpl; [reflexivity|].
  destruct (settled_error_deliver p n Hf) as [He Hf'].
  rewrite (IH _ Hf'). exact He.
Qed.

Lemma error_comes_from_initial_fetch_only_witness :
  let p := run [InitialFetchSettled (Threw (ErrorObject "invalid JWT"))] in
  let q := fold_left deliver
             [AuthStateChange (Some {| session_user := {| user_id := "u1" |} |})] p in
  reachable p /\
  error (authState q) = Some "invalid JWT" /\
  view_user (useAuth (authState q)) = Some {| user_id := "u1" |}.
Proof.
  intros p q.
  assert (Hp : reachable p) by apply AuthFacts.reachable_run.
  split; [exact Hp|]. split; [|reflexivity].
  destruct (error_comes_from_initial_fetch_only p Hp) as [_ Hkeep].
  exact (Hkeep eq_refl
           [AuthStateChange (Some {| session_user := {| user_id := "u1" |} |})]).
Defined.

Lemma only_changes_keep_pending ns :
  forallb (fun n => match n with AuthStateChange _ => true | _ => false end) ns = true ->
  mounted (run ns) = true /\ fetchPending (run ns) = true.
Proof.
  induction ns as [|n ns IH] using rev_ind; [auto|].
  rewrite forallb_app. simpl. rewrite andb_true_r.
  intros [Hns Hn]%andb_true_iff. rewrite AuthFacts.run_snoc.
  destruct (IH Hns) as [Hm Hf].
  destruct n; try discriminate. simpl. rewrite Hm. auto.
Qed.

(** X4: the initial fetch has the last word over the session changes that
    arrived before it: whatever identities they brought, when [getUser]
    settles on a mounted provider the state becomes the fetch's outcome, so
    a failed fetch hides an identity a session change had already exposed. *)
Theorem initial_fetch_overwrites_earlier_sessions
    (ns : list Notification) (o : FetchOutcome) :
  forallb (fun n => match n with AuthStateChange _ => true | _ => false end) ns = true ->
  authState (run (ns ++ [InitialFetchSettled o])) = afterInitialSession o
  /\ view_user (useAuth (authState (run (ns ++ [InitialFetchSettled o]))))
     = match o with GotUser u => u | Threw _ => None end.
Proof.
  intros Hns. destruct (only_changes_keep_pending ns Hns) as [Hm Hf].
  rewrite AuthFacts.run_snoc. simpl. rewrite Hf. simpl. rewrite Hm.
  split; [reflexivity|]. now destruct o.
Qed.

Lemma initial_fetch_overwrites_earlier_sessions_witness :
  let s := {| session_user := {| user_id := "u1" |} |} in
  view_user (useAuth (authState (run [AuthStateChange (Some s)])))
  = Some {| user_id := "u1" |} /\
  view_user (useAuth (authState (run ([AuthStateChange (Some s)]
                                        ++ [InitialFetchSettled (Threw NotAnError)]))))
  = None.
Proof.
  split; [reflexivity|].
  exact (proj2 (initial_fetch_overwrites_earlier_sessions
                  [AuthStateChange (Some {| session_user := {| user_id := "u1" |} |})]
                  (Threw NotAnError) eq_refl)).
Defined.

(** X5: a session change delivered to a mounted provider ends the loading
    placeholder at once, also while [getUser] is still pending: the guard
    then shows the protected subtree when the session has a user and
    nothing otherwise, and it does not navigate. *)
Theorem session_change_ends_placeholder
    (p : Provider) (session : option Session) (previous : option AuthState) :
  reachable p -> mounted p = true ->
  AuthGuard.AuthGuard previous (authState (deliver p (AuthStateChange session)))
  = (match session with Some _ => Children | None => Nothing end, []).
Proof.
  intros Hp Hm.
  assert (Hq : reachable (deliver p (AuthStateChange session)))
    by now apply reach_deliver.
  pose proof (AuthFacts.effect_dead _ Hq) as Hdead.
  unfold AuthGuard.AuthGuard, navigations. rewrite Hdead.
  simpl. rewrite Hm. simpl.
  destruct session; simpl; now destruct (effectRuns _ _).
Qed.

Lemma session_change_ends_placeholder_witness :
  reachable mount /\ fetchPending mount = true /\
  AuthGuard.AuthGuard (Some (authState mount))
    (authState (deliver mount (AuthStateChange None)))
  = (Nothing, []).
Proof.
  split; [apply reach_mount|]. split; [reflexivity|].
  exact (session_change_ends_placeholder mount None (Some (authState mount))
           reach_mount eq_refl).
Defined.

(** X6: the protected subtree is rendered only for a state that is not
    loading, is initialized and holds an identity; this holds for every
    state, reachable or not. *)
Theorem children_need_identity (previous : option AuthState) (a : AuthState) :
  fst (AuthGuard.AuthGuard previous a) = Children ->
  loading a = false /\ initialized a = true /\ is_Some (user a).
Proof.
  unfold AuthGuard.AuthGuard, render, useAuth. simpl.
  destruct (loading a); [discriminate|].
  destruct (initialized a); [|discriminate].
  destruct (user a); [|discriminate]. eauto.
Qed.

Lemma children_need_identity_witness :
  let a := {| user := Some {| user_id := "u1" |}; loading := false;
              initialized := true; error := None |} in
  fst (AuthGuard.AuthGuard None a) = Children /\ is_Some (user a).
Proof.
  split; [reflexivity|].
  exact (proj2 (proj2 (children_need_identity None
                         {| user := Some {| user_id := "u1" |}; loading := false;
                            initialized := true; error := None |} eq_refl))).
Defined.

(** X7: the guard navigates nowhere but to "/login", at most once per
    evaluation, and only when the effect runs on a state that is not
    loading, exposes no user and is not initialized; a re-render with the
    same hook state never navigates. *)
Theorem navigation_is_login_only (previous : option AuthState) (a : AuthState) :
  let navs := snd (AuthGuard.AuthGuard previous a) in
  (navs = [] \/ navs = ["/login"]) /\
  (navs <> [] ->
     loading a = false /\ initialized a = false
     /\ effectRuns (useAuth <$> previous) (useAuth a) = true) /\
  snd (AuthGuard.AuthGuard (Some a) a) = [].
Proof.
  unfold AuthGuard.AuthGuard, navigations, effect, useAuth. cbn [snd].
  cbn [view_loading view_user isInitialized].
  split; [|split].
  - destruct (effectRuns _ _); [|now left].
    destruct (_ && _ && _); auto.
  - destruct (effectRuns _ _) eqn:Erun; [|congruence].
    destruct (loading a); [simpl; congruence|].
    destruct (initialized a); [rewrite andb_false_r; congruence|auto].
  - unfold effectRuns. cbn [fmap option_fmap option_map view_loading view_user].
    rewrite bool_decide_eq_true_2 by reflexivity.
    now rewrite Bool.eqb_reflx.
Qed.

End SessionLifecycle.


(** * What handlers leave behind: rules for the combinators *)

Section Rules.
Context {R : Type}.
Variable G : World R -> World R -> Prop.
Hypothesis G_refl : forall w, G w w.
Hypothesis G_trans : forall w1 w2 w3, G w1 w2 -> G w2 w3 -> G w1 w3.

Lemma guarantees_ret {A} (a : A) : guarantees G (ret a).
Proof. intros w. apply G_refl. Qed.

Lemma guarantees_throw {A} (e : string) : guarantees G (@throw R A e).
Proof. intros w. apply G_refl. Qed.

Lemma guarantees_bind {A C} (m : Async R A) (k : A -> Async R C) :
  guarantees G m -> (forall a, guarantees G (k a)) -> guarantees G (bind m k).
Proof.
  intros Hm Hk w. unfold bind. specialize (Hm w).
  destruct (m w) as [w' [a|e]]; simpl in *; [|exact Hm].
  eapply G_trans; [exact Hm|apply Hk].
Qed.

Lemma guarantees_try_catch {A} (m : Async R A) (h : string -> Async R A) :
  guarantees G m -> (forall e, guarantees G (h e)) -> guarantees G (try_catch m h).
Proof.
  intros Hm Hh w. unfold try_catch. specialize (Hm w).
  destruct (m w) as [w' [a|e]]; simpl in *; [exact Hm|].
  eapply G_trans; [exact Hm|apply Hh].
Qed.

Lemma guarantees_try_finally {A} (m : Async R A) (f : Async R unit) :
  guarantees G m -> guarantees G f -> guarantees G (try_finally m f).
Proof.
  intros Hm Hf w. unfold try_finally. specialize (Hm w).
  destruct (m w) as [w' r]. specialize (Hf w').
  destruct (f w') as [w'' [[]|e]]; simpl in *; eapply G_trans; eauto.
Qed.

End Rules.

Section NeverThrows.
Context {R : Type}.

Lemma try_catch_never_throws {A} (m : Async R A) (h : string -> Async R A) :
  (forall e, never_throws (h e)) -> never_throws (try_catch m h).
Proof.
  intros Hh w. unfold try_catch. destruct (m w) as [w' [a|e]]; [now exists a|apply Hh].
Qed.

Lemma bind_never_throws {A C} (m : Async R A) (k : A -> Async R C) :
  never_throws m -> (forall a, never_throws (k a)) -> never_throws (bind m k).
Proof.
  intros Hm Hk w. unfold bind. destruct (Hm w) as [a Ha].
  destruct (m w) as [w' r]. simpl in Ha. subst r. apply Hk.
Qed.

Lemma try_finally_never_throws {A} (m : Async R A) (f : Async R unit) :
  never_throws m -> never_throws f -> never_throws (try_finally m f).
Proof.
  intros Hm Hf w. unfold try_finally. destruct (Hm w) as [a Ha].
  destruct (m w) as [w' r]. simpl in Ha. subst r.
  destruct (Hf w') as [u Hu]. destruct (f w') as [w'' r]. simpl in Hu. subst r.
  now exists a.
Qed.

Lemma setState_never_throws (f : State R -> State R) : never_throws (setState f).
Proof. intros w. now exists tt. Qed.

End NeverThrows.

Section Footprint.
Context {R : Type} `{Row R}.
Variable table : string.
Variable bucket : string.

Lemma footprint_refl (w : World R) : footprint table bucket w w.
Proof. exists []. rewrite app_nil_r. repeat split; auto. Qed.

Lemma footprint_trans (w1 w2 w3 : World R) :
  footprint table bucket w1 w2 -> footprint table bucket w2 w3 ->
  footprint table bucket w1 w3.
Proof.
  intros (e1 & T1 & F1 & L1 & R1) (e2 & T2 & F2 & L2 & R2).
  exists (e1 ++ e2). split; [now rewrite T2, T1, app_assoc|].
  split; [now apply Forall_app|]. split.
  - destruct L2 as [-> | ->]; auto.
  - destruct R2 as [-> | Hin]; [|right; apply in_or_app; auto].
    destruct R1 as [-> | Hin]; [auto|right; apply in_or_app; auto].
Qed.

Lemma footprint_setState (f : State R -> State R) :
  (forall s, records (f s) = records s) ->
  (forall s, loading (f s) = loading s \/ loading (f s) = false) ->
  guarantees (footprint table bucket) (setState f).
Proof.
  intros Hr Hl w. exists []. simpl. rewrite app_nil_r. repeat split; auto.
Qed.

Lemma footprint_setError v : guarantees (footprint table bucket) (@setError R v).
Proof. apply footprint_setState; auto. Qed.
Lemma footprint_setEditing v : guarantees (footprint table bucket) (@setEditing R v).
Proof. apply footprint_setState; auto. Qed.
Lemma footprint_setShowForm v : guarantees (footprint table bucket) (@setShowForm R v).
Proof. apply footprint_setState; auto. Qed.
Lemma footprint_setLoading_false : guarantees (footprint table bucket) (@setLoading R false).
Proof. apply footprint_setState; auto. Qed.

Lemma footprint_events (w : World R) (evs : list Event) :
  Forall (within table bucket) evs ->
  footprint table bucket w {| trace := trace w ++ evs; ui := ui w |}.
Proof. intros Hevs. exists evs. simpl. auto. Qed.

Lemma footprint_query {X} (c : Call) (answer : list Event -> X) (ok : X -> bool) :
  within table bucket (Issued c) ->
  guarantees (footprint table bucket) (@query R X c answer ok).
Proof.
  intros Hc w. unfold query, bind, issue, log, settle. simpl.
  rewrite <- app_assoc.
  apply (footprint_events w [Issued c; Settled c (ok (answer (trace w ++ [Issued c])))]).
  constructor; [exact Hc|]. constructor; [exact Hc|]. constructor.
Qed.

Lemma footprint_invoke {A} (c : Call) (answer : list Event -> Outcome A) :
  within table bucket (Issued c) ->
  guarantees (footprint table bucket) (@invoke R A c answer).
Proof.
  intros Hc w. unfold invoke, await, bind, issue, log, settle. simpl.
  destruct (answer (trace w ++ [Issued c])) as [a|e]; simpl; rewrite <- app_assoc.
  - apply (footprint_events w [Issued c; Settled c true]). constructor; [exact Hc|]. constructor; [exact Hc|]. constructor.
  - apply (footprint_events w [Issued c; Settled c false]). constructor; [exact Hc|]. constructor; [exact Hc|]. constructor.
Qed.

Lemma footprint_Promise_all {X A} (mk : X -> Call)
    (answer : list Event -> X -> Outcome A) (xs : list X) :
  (forall x, within table bucket (Issued (mk x))) ->
  guarantees (footprint table bucket) (@Promise_all R X A mk answer xs).
Proof.
  intros Hmk [tr st]. rewrite Promise_all_run. cbn [fst trace ui].
  apply (footprint_events {| trace := tr; ui := st |}).
  apply Forall_app. split.
  - apply List.Forall_forall. intros e (x & <- & _)%in_map_iff. apply Hmk.
  - apply List.Forall_forall. intros e He.
    destruct (settlements_events _ _ _ _ _ He) as (x & ok & _ & ->). apply (Hmk x).
Qed.

Variable B : Backend R.

Lemma footprint_fetchRecords :
  guarantees (footprint table bucket) (fetchRecords B table).
Proof.
  intros [tr st].
  destruct (fetchRecords_run B table tr st) as (st' & -> & Hl & _ & _ & Hr).
  cbn [fst]. eexists. cbn [trace ui]. split; [reflexivity|].
  split; [constructor; [now left|]; constructor; [now left|]; constructor|].
  split; [now right|].
  destruct (select B _ table "created_at" false) as [data|e].
  - right. right. now left.
  - left. apply Hr.
Qed.

End Footprint.

Section HandlerFootprints.
Context {R : Type} `{Row R}.
Variable B : Backend R.
Variable table : string.
Variable bucket : string.
Variable uploadPath : option R -> string.

Local Abbreviation FP := (footprint table bucket).

Lemma fp_bind {A C} (m : Async R A) (k : A -> Async R C) :
  guarantees FP m -> (forall a, guarantees FP (k a)) -> guarantees FP (bind m k).
Proof. apply guarantees_bind. apply footprint_trans. Qed.

Lemma fp_try_catch {A} (m : Async R A) (h : string -> Async R A) :
  guarantees FP m -> (forall e, guarantees FP (h e)) -> guarantees FP (try_catch m h).
Proof. apply guarantees_try_catch. apply footprint_trans. Qed.

Lemma fp_ret {A} (a : A) : guarantees FP (@ret R A a).
Proof. apply guarantees_ret. apply footprint_refl. Qed.

Lemma fp_throw {A} (e : string) : guarantees FP (@throw R A e).
Proof. apply guarantees_throw. apply footprint_refl. Qed.

Ltac fp_step :=
  first
    [ apply fp_ret | apply fp_throw
    | apply footprint_setError | apply footprint_setEditing
    | apply footprint_setShowForm | apply footprint_fetchRecords
    | apply footprint_query; [now left]
    | apply footprint_invoke; [now right]
    | apply footprint_Promise_all; [intros ?; now right]
    | apply fp_try_catch; [|intros ?]
    | apply fp_bind; [|intros ?]
    | match goal with
      | |- guarantees _ (match ?x with _ => _ end) => destruct x
      end ].

Lemma footprint_submit (st : State R) (rowData : Payload) :
  guarantees FP (submit B table st rowData).
Proof. unfold submit. repeat fp_step. Qed.

Lemma footprint_handleImageUpload (st : State R) (files : list File) :
  guarantees FP (handleImageUpload B table bucket uploadPath st files).
Proof. unfold handleImageUpload, uploadCall. repeat fp_step. Qed.

Lemma footprint_handleImageDelete (st : State R) (url : string) :
  guarantees FP (handleImageDelete B table bucket st url).
Proof. unfold handleImageDelete. repeat fp_step. Qed.

Lemma footprint_handleDelete (st : State R) (confirmed : bool) (id : string) :
  guarantees FP (handleDelete B table bucket st confirmed id).
Proof. unfold handleDelete. destruct confirmed; cbn [negb]; repeat fp_step. Qed.

Lemma footprint_onAddClick : guarantees FP (@onAddClick R).
Proof. unfold onAddClick. repeat fp_step. Qed.

Lemma footprint_onEditClick (r : R) : guarantees FP (onEditClick r).
Proof. unfold onEditClick. repeat fp_step. Qed.

Lemma footprint_onCancelClick : guarantees FP (@onCancelClick R).
Proof. unfold onCancelClick. repeat fp_step. Qed.

(** a whole run of events keeps what each handler keeps *)
Lemma footprint_interact (react : State R -> Action R -> Async R unit) :
  (forall st a, guarantees FP (react st a)) ->
  forall actions w, FP w (interact react w actions).
Proof.
  intros Hreact actions. induction actions as [|a actions IH]; intros w; simpl.
  - apply footprint_refl.
  - eapply footprint_trans; [apply Hreact|apply IH].
Qed.

End HandlerFootprints.

Lemma propertiesReact_footprint B type st a :
  guarantees (footprint (PropertiesManager.tableName type) "properties")
    (propertiesReact B type st a).
Proof.
  destruct a; simpl.
  - apply footprint_fetchRecords.
  - apply footprint_onAddClick.
  - apply footprint_onEditClick.
  - apply footprint_onCancelClick.
  - unfold PropertiesManager.handleSubmit.
    apply guarantees_bind; [apply footprint_trans|apply footprint_setError|intros _].
    apply footprint_submit.
  - apply footprint_handleImageUpload.
  - apply footprint_handleImageDelete.
  - apply footprint_handleDelete.
Qed.

Lemma plotsReact_footprint B st a :
  guarantees (footprint "plots" "plots") (plotsReact B st a).
Proof.
  destruct a; simpl.
  - apply footprint_fetchRecords.
  - apply footprint_onAddClick.
  - apply footprint_onEditClick.
  - apply footprint_onCancelClick.
  - unfold PlotsManager.handleSubmit.
    apply guarantees_bind; [apply footprint_trans|apply footprint_setError|intros _].
    apply footprint_submit.
  - apply footprint_handleImageUpload.
  - apply footprint_handleImageDelete.
  - apply footprint_handleDelete.
Qed.

(** * Across any run of events *)

(** X8: whatever the user does on a manager screen, and whatever the
    backend answers, every record-store call goes to that manager's own
    table and every storage call to its own bucket; the three property
    kinds and the plots use four different tables. *)
Theorem managers_stay_in_their_table_and_bucket :
  (forall B type w actions,
     exists evs,
       trace (interact (propertiesReact B type) w actions) = trace w ++ evs /\
       Forall (within (PropertiesManager.tableName type) "properties") evs) /\
  (forall B w actions,
     exists evs,
       trace (interact (plotsReact B) w actions) = trace w ++ evs /\
       Forall (within "plots" "plots") evs) /\
  (forall type type',
     PropertiesManager.tableName type = PropertiesManager.tableName type' -> type = type') /\
  (forall type, PropertiesManager.tableName type <> "plots").
Proof.
  split; [|split; [|split]].
  - intros B type w actions.
    destruct (footprint_interact _ _ (propertiesReact B type)
                (propertiesReact_footprint B type) actions w) as (evs & Ht & Hf & _).
    now exists evs.
  - intros B w actions.
    destruct (footprint_interact _ _ (plotsReact B) (plotsReact_footprint B) actions w)
      as (evs & Ht & Hf & _).
    now exists evs.
  - intros [] []; simpl; intros [=]; reflexivity.
  - intros []; discriminate.
Qed.

Lemma mounted_not_loading {R : Type} `{Row R} (B : Backend R) (table bucket : string)
    (react : State R -> Action R -> Async R unit) (w : World R) (actions : list (Action R)) :
  (forall st a, guarantees (footprint table bucket) (react st a)) ->
  (forall st, react st Mounted = fetchRecords B table) ->
  loading (ui (interact react w (Mounted :: actions))) = false.
Proof.
  intros Hfp Hm. simpl. rewrite Hm.
  destruct w as [tr st].
  destruct (fetchRecords_run B table tr st) as (st' & Hrun & Hl & _).
  rewrite Hrun. cbn [fst].
  destruct (footprint_interact table bucket react Hfp actions
              {| trace := tr ++ [Issued (refetch table);
                                 Settled (refetch table)
                                   (rows_ok (select B (tr ++ [Issued (refetch table)])
                                               table "created_at" false))];
                 ui := st' |})
    as (_ & _ & _ & [Hsame|Hfalse] & _); [|exact Hfalse].
  rewrite Hsame. exact Hl.
Qed.

(** X9: the "Loading..." placeholder belongs to the first fetch alone: once
    the mount effect has run, no later event, successful or not, brings it
    back. *)
Theorem placeholder_only_before_first_fetch :
  (forall B type w actions,
     let st := ui (interact (propertiesReact B type) w (Mounted :: actions)) in
     loading st = false /\ renderProperties type st <> LoadingView) /\
  (forall B w actions,
     let st := ui (interact (plotsReact B) w (Mounted :: actions)) in
     loading st = false /\ renderPlots st <> LoadingView).
Proof.
  split.
  - intros B type w actions st.
    assert (Hl : loading st = false).
    { apply (mounted_not_loading B (PropertiesManager.tableName type) "properties");
        [apply propertiesReact_footprint|reflexivity]. }
    split; [exact Hl|]. unfold renderProperties, view. now rewrite Hl.
  - intros B w actions st.
    assert (Hl : loading st = false).
    { apply (mounted_not_loading B "plots" "plots");
        [apply plotsReact_footprint|reflexivity]. }
    split; [exact Hl|]. unfold renderPlots, view. now rewrite Hl.
Qed.

(** X10: the list on screen is never edited locally: over any run of
    events it stays as it was unless a select of the manager's table came
    back with data during the run. *)
Theorem list_changes_only_by_refetch :
  (forall B type w actions,
     let w' := interact (propertiesReact B type) w actions in
     exists evs, trace w' = trace w ++ evs /\
       (records (ui w') = records (ui w) \/
        In (Settled (Select (PropertiesManager.tableName type) "created_at" false) true) evs)) /\
  (forall B w actions,
     let w' := interact (plotsReact B) w actions in
     exists evs, trace w' = trace w ++ evs /\
       (records (ui w') = records (ui w) \/
        In (Settled (Select "plots" "created_at" false) true) evs)).
Proof.
  split.
  - intros B type w actions w'.
    destruct (footprint_interact _ _ (propertiesReact B type)
                (propertiesReact_footprint B type) actions w) as (evs & Ht & _ & _ & Hr).
    now exists evs.
  - intros B w actions w'.
    destruct (footprint_interact _ _ (plotsReact B) (plotsReact_footprint B) actions w)
      as (evs & Ht & _ & _ & Hr).
    now exists evs.
Qed.

Lemma handler_never_throws {R : Type} (m : Async R unit) :
  never_throws (try_catch m (fun message => setError (Some message))).
Proof. apply try_catch_never_throws. intros e. apply setState_never_throws. Qed.

Lemma fetchRecords_never_throws {R : Type} (B : Backend R) (table : string) :
  never_throws (fetchRecords B table).
Proof.
  unfold fetchRecords. apply try_finally_never_throws.
  - apply handler_never_throws.
  - apply setState_never_throws.
Qed.

Lemma clicks_never_throw {R : Type} (r : R) :
  never_throws (@onAddClick R) /\ never_throws (onEditClick r)
  /\ never_throws (@onCancelClick R).
Proof.
  repeat split.
  - apply bind_never_throws; [|intros _]; apply setState_never_throws.
  - apply bind_never_throws; [|intros _]; apply setState_never_throws.
  - apply setState_never_throws.
Qed.

(** X11: no handler of either manager lets an error escape: a rejected
    upload or storage delete, an error response of the record store and
    the delete of a record that is not listed all end in the handler's own
    [catch], so every event handler completes. *)
Theorem handlers_catch_every_failure :
  (forall B type st a, never_throws (propertiesReact B type st a)) /\
  (forall B st a, never_throws (plotsReact B st a)).
Proof.
  split.
  - intros B type st a. destruct a as [| |r| |fd|files|url|id confirmed]; simpl.
    + apply fetchRecords_never_throws.
    + apply (clicks_never_throw Samples.R1).
    + apply (clicks_never_throw r).
    + apply (clicks_never_throw Samples.R1).
    + apply bind_never_throws; [apply setState_never_throws|intros _].
      apply handler_never_throws.
    + apply handler_never_throws.
    + apply handler_never_throws.
    + unfold PropertiesManager.handleDelete, handleDelete.
      destruct confirmed; cbn [negb]; [apply handler_never_throws|].
      intros w. now exists tt.
  - intros B st a. destruct a as [| |r| |fd|files|url|id confirmed]; simpl.
    + apply fetchRecords_never_throws.
    + apply (clicks_never_throw Samples.P1).
    + apply (clicks_never_throw r).
    + apply (clicks_never_throw Samples.P1).
    + apply bind_never_throws; [apply setState_never_throws|intros _].
      apply handler_never_throws.
    + apply handler_never_throws.
    + apply handler_never_throws.
    + unfold PlotsManager.handleDelete, handleDelete.
      destruct confirmed; cbn [negb]; [apply handler_never_throws|].
      intros w. now exists tt.
Qed.

(** * The list fetch and the first screen *)

Section FetchAndSubmit.
Context {R : Type} `{Row R}.
Variable B : Backend R.
Variable table : string.
Implicit Types (tr : list Event) (st : State R).

(** the state a fetch leaves, given what the select answered *)
Lemma fetchRecords_state tr st :
  let r := select B (tr ++ [Issued (refetch table)]) table "created_at" false in
  fetchRecords B table {| trace := tr; ui := st |}
  = ({| trace := tr ++ [Issued (refetch table); Settled (refetch table) (rows_ok r)];
        ui := {| records := match r with RowsData data => data | RowsError _ => records st end;
                 loading := false;
                 error := match r with RowsData _ => error st | RowsError e => Some e end;
                 editing := editing st;
                 showForm := showForm st |} |}, Resolved tt).
Proof.
  intros r. subst r. unfold fetchRecords, refetch. run_async.
  destruct (select B _ table "created_at" false) as [data|e];
    rewrite <- app_assoc; reflexivity.
Qed.

(** the state [setError(null)] followed by [submit] leaves *)
Lemma cleared_submit_state tr st0 st rowData :
  let c := submitCall table st rowData in
  let e := submitError B table st rowData (tr ++ [Issued c]) in
  let r := select B (tr ++ [Issued c; Settled c true; Issued (refetch table)])
             table "created_at" false in
  ui (fst ((setError None ;; submit B table st rowData) {| trace := tr; ui := st0 |}))
  = match e with
    | Some m =>
        {| records := records st0; loading := loading st0; error := Some m;
           editing := editing st0; showForm := showForm st0 |}
    | None =>
        {| records := match r with RowsData data => data | RowsError _ => records st0 end;
           loading := false;
           error := match r with RowsData _ => None | RowsError e => Some e end;
           editing := None;
           showForm := false |}
    end.
Proof.
  intros c e r. subst c e r. unfold submit, submitCall, submitError.
  destruct (editing st) as [ed|]; run_async.
  - destruct (update B _ table rowData (row_id ed)) as [m|]; cbn [no_error]; [reflexivity|].
    rewrite fetchRecords_state. cbn [trace ui error records].
    rewrite <- !app_assoc. cbn [app]. reflexivity.
  - destruct (insert B _ table [rowData]) as [m|]; cbn [no_error]; [reflexivity|].
    rewrite fetchRecords_state. cbn [trace ui error records].
    rewrite <- !app_assoc. cbn [app]. reflexivity.
Qed.

End FetchAndSubmit.

(** X12: the first screen.  From the initial state, the mount effect
    issues one select of the manager's table ordered by [created_at]
    descending; the page then shows the rows exactly as the store returned
    them, in that order, with no banner and no form, or, when the select
    reports an error, an empty table under a banner with its message. *)
Theorem first_screen :
  (forall B type tr,
     let listing := Select (PropertiesManager.tableName type) "created_at" false in
     let r := select B (tr ++ [Issued listing]) (PropertiesManager.tableName type)
                "created_at" false in
     let w' := interact (propertiesReact B type) {| trace := tr; ui := initialState |}
                 [Mounted] in
     trace w' = tr ++ [Issued listing; Settled listing (rows_ok r)] /\
     renderProperties type (ui w')
     = match r with
       | RowsData data => PageView (propertiesHeading type) None None data
       | RowsError e =>
           PageView (propertiesHeading type)
             (if String.eqb e "" then None else Some e) None []
       end) /\
  (forall B tr,
     let listing := Select "plots" "created_at" false in
     let r := select B (tr ++ [Issued listing]) "plots" "created_at" false in
     let w' := interact (plotsReact B) {| trace := tr; ui := initialState |} [Mounted] in
     trace w' = tr ++ [Issued listing; Settled listing (rows_ok r)] /\
     renderPlots (ui w')
     = match r with
       | RowsData data => PageView "Gated Community Plots" None None data
       | RowsError e =>
           PageView "Gated Community Plots"
             (if String.eqb e "" then None else Some e) None []
       end).
Proof.
  split.
  - intros B type tr listing r w'. subst w'. cbn [interact fold_left propertiesReact].
    unfold PropertiesManager.fetchProperties. rewrite fetchRecords_state.
    cbn [fst trace ui]. split; [reflexivity|].
    unfold renderProperties, view. cbn [loading error showForm records initialState].
    subst r listing. unfold refetch.
    destruct (select B _ _ "created_at" false); reflexivity.
  - intros B tr listing r w'. subst w'. cbn [interact fold_left plotsReact].
    unfold PlotsManager.fetchPlots. rewrite fetchRecords_state.
    cbn [fst trace ui]. split; [reflexivity|].
    unfold renderPlots, view. cbn [loading error showForm records initialState].
    subst r listing. unfold refetch.
    destruct (select B _ _ "created_at" false); reflexivity.
Qed.

(** X14: how a submission ends, for create and edit alike.  When the write
    reports an error, its message is shown and the form, the draft and the
    list stay as they were.  When the write succeeds the form is closed and
    the draft dropped in every case: with the refetched rows and no banner
    when the select succeeds, with the old rows under the select's message
    when it fails. *)
Theorem submission_outcome :
  (forall B type tr st0 st fd,
     let table := PropertiesManager.tableName type in
     let row := PropertiesManager.propertyData st fd in
     let c := submitCall table st row in
     let w' := fst (PropertiesManager.handleSubmit B type st fd {| trace := tr; ui := st0 |}) in
     match submitError B table st row (tr ++ [Issued c]) with
     | Some m =>
         error (ui w') = Some m /\ showForm (ui w') = showForm st0 /\
         editing (ui w') = editing st0 /\ records (ui w') = records st0
     | None =>
         showForm (ui w') = false /\ editing (ui w') = None /\
         match select B (tr ++ [Issued c; Settled c true; Issued (refetch table)])
                 table "created_at" false with
         | RowsData data => records (ui w') = data /\ error (ui w') = None
         | RowsError e => records (ui w') = records st0 /\ error (ui w') = Some e
         end
     end) /\
  (forall B tr st0 st fd,
     let row := PlotsManager.plotData st fd in
     let c := submitCall "plots" st row in
     let w' := fst (PlotsManager.handleSubmit B st fd {| trace := tr; ui := st0 |}) in
     match submitError B "plots" st row (tr ++ [Issued c]) with
     | Some m =>
         error (ui w') = Some m /\ showForm (ui w') = showForm st0 /\
         editing (ui w') = editing st0 /\ records (ui w') = records st0
     | None =>
         showForm (ui w') = false /\ editing (ui w') = None /\
         match select B (tr ++ [Issued c; Settled c true; Issued (refetch "plots")])
                 "plots" "created_at" false with
         | RowsData data => records (ui w') = data /\ error (ui w') = None
         | RowsError e => records (ui w') = records st0 /\ error (ui w') = Some e
         end
     end).
Proof.
  split.
  - intros B type tr st0 st fd table row c w'.
    pose proof (cleared_submit_state B table tr st0 st row) as Hst.
    cbv zeta in Hst. fold c in Hst.
    assert (Hw : ui w' = ui (fst ((setError None ;; submit B table st row)
                                    {| trace := tr; ui := st0 |}))) by reflexivity.
    rewrite <- Hw in Hst. clear Hw.
    destruct (submitError B table st row (tr ++ [Issued c])) as [m|]; rewrite Hst.
    + cbn. auto.
    + cbn [showForm editing records error]. split; [reflexivity|]. split; [reflexivity|].
      destruct (select B _ table "created_at" false); auto.
  - intros B tr st0 st fd row c w'.
    pose proof (cleared_submit_state B "plots" tr st0 st row) as Hst.
    cbv zeta in Hst. fold c in Hst.
    assert (Hw : ui w' = ui (fst ((setError None ;; submit B "plots" st row)
                                    {| trace := tr; ui := st0 |}))) by reflexivity.
    rewrite <- Hw in Hst. clear Hw.
    destruct (submitError B "plots" st row (tr ++ [Issued c])) as [m|]; rewrite Hst.
    + cbn. auto.
    + cbn [showForm editing records error]. split; [reflexivity|]. split; [reflexivity|].
      destruct (select B _ "plots" "created_at" false); auto.
Qed.

(** * The error banner *)

Section Banner.
Context {R : Type} `{Row R}.
Variable B : Backend R.
Variable table : string.
Variable bucket : string.
Variable uploadPath : option R -> string.

Local Abbreviation KB := (@keeps_banner R).

Lemma kb_refl (w : World R) : KB w w.
Proof. intros Hs. exact Hs. Qed.

Lemma kb_trans (w1 w2 w3 : World R) : KB w1 w2 -> KB w2 w3 -> KB w1 w3.
Proof. unfold keeps_banner. auto. Qed.

(** code that does not write the component state *)
Lemma kb_same_ui {A} (m : Async R A) :
  (forall w, ui (fst (m w)) = ui w) -> guarantees KB m.
Proof. intros Hm w Hs. now rewrite Hm. Qed.

Lemma kb_query {X} (c : Call) (answer : list Event -> X) (ok : X -> bool) :
  guarantees KB (@query R X c answer ok).
Proof. apply kb_same_ui. reflexivity. Qed.

Lemma kb_invoke {A} (c : Call) (answer : list Event -> Outcome A) :
  guarantees KB (@invoke R A c answer).
Proof.
  apply kb_same_ui. intros w. unfold invoke, await, bind, issue, log, settle. simpl.
  now destruct (answer _).
Qed.

Lemma kb_Promise_all {X A} (mk : X -> Call) (answer : list Event -> X -> Outcome A)
    (xs : list X) :
  guarantees KB (@Promise_all R X A mk answer xs).
Proof. apply kb_same_ui. intros [tr st]. now rewrite Promise_all_run. Qed.

Lemma kb_setError_Some (m : string) : guarantees KB (@setError R (Some m)).
Proof. intros w _. simpl. eauto. Qed.

Lemma kb_setEditing v : guarantees KB (@setEditing R v).
Proof. intros w Hs. exact Hs. Qed.

Lemma kb_setShowForm v : guarantees KB (@setShowForm R v).
Proof. intros w Hs. exact Hs. Qed.

Lemma kb_fetchRecords : guarantees KB (fetchRecords B table).
Proof.
  intros [tr st] Hs. rewrite fetchRecords_state. cbn [fst ui error] in *.
  destruct (select B _ table "created_at" false); eauto.
Qed.

Ltac kb_step :=
  first
    [ apply guarantees_ret; apply kb_refl
    | apply guarantees_throw; apply kb_refl
    | apply kb_setError_Some | apply kb_setEditing | apply kb_setShowForm
    | apply kb_fetchRecords | apply kb_query | apply kb_invoke | apply kb_Promise_all
    | apply guarantees_try_catch; [apply kb_trans| |intros ?]
    | apply guarantees_bind; [apply kb_trans| |intros ?]
    | match goal with
      | |- guarantees _ (match ?x with _ => _ end) => destruct x
      end ].

Lemma kb_handleImageUpload (st : State R) (files : list File) :
  guarantees KB (handleImageUpload B table bucket uploadPath st files).
Proof. unfold handleImageUpload. repeat kb_step. Qed.

Lemma kb_handleImageDelete (st : State R) (url : string) :
  guarantees KB (handleImageDelete B table bucket st url).
Proof. unfold handleImageDelete. repeat kb_step. Qed.

Lemma kb_handleDelete (st : State R) (confirmed : bool) (id : string) :
  guarantees KB (handleDelete B table bucket st confirmed id).
Proof. unfold handleDelete. destruct confirmed; cbn [negb]; repeat kb_step. Qed.

Lemma kb_onAddClick : guarantees KB (@onAddClick R).
Proof. unfold onAddClick. repeat kb_step. Qed.

Lemma kb_onEditClick (r : R) : guarantees KB (onEditClick r).
Proof. unfold onEditClick. repeat kb_step. Qed.

Lemma kb_onCancelClick : guarantees KB (@onCancelClick R).
Proof. unfold onCancelClick. repeat kb_step. Qed.

Lemma kb_interact (react : State R -> Action R -> Async R unit) :
  (forall st a, notSubmit a = true -> guarantees KB (react st a)) ->
  forall actions w, forallb notSubmit actions = true -> KB w (interact react w actions).
Proof.
  intros Hreact actions. induction actions as [|a actions IH]; intros w; simpl.
  - intros _. apply kb_refl.
  - intros [Ha Has]%andb_true_iff.
    eapply kb_trans; [apply (Hreact (ui w) a Ha)|apply (IH _ Has)].
Qed.

End Banner.

(** X13: the [error] state, once set, is put back to null by a form
    submission only ([handleSubmit] starts with [setError(null)]): no other
    event, not even a successful refetch or delete, resets it; it can only
    be replaced by the message of a newer failure.  On screen the banner
    therefore stays up after such events unless the message that replaced
    it is empty, which [{error && ...}] does not show. *)
Theorem error_reset_by_submit_only :
  (forall B type w actions m,
     forallb notSubmit actions = true ->
     error (ui w) = Some m ->
     let st' := ui (interact (propertiesReact B type) w actions) in
     exists m',
       error st' = Some m' /\
       (loading st' = false ->
        exists form rows,
          renderProperties type st'
          = PageView (propertiesHeading type)
              (if String.eqb m' "" then None else Some m') form rows)) /\
  (forall B w actions m,
     forallb notSubmit actions = true ->
     error (ui w) = Some m ->
     let st' := ui (interact (plotsReact B) w actions) in
     exists m',
       error st' = Some m' /\
       (loading st' = false ->
        exists form rows,
          renderPlots st'
          = PageView "Gated Community Plots"
              (if String.eqb m' "" then None else Some m') form rows)).
Proof.
  split.
  - intros B type w actions m Hns Hm st'.
    assert (Hkeep : is_Some (error st')).
    { apply (kb_interact (propertiesReact B type)); [|exact Hns|rewrite Hm; eauto].
      intros st a Ha. destruct a; try discriminate; simpl.
      + apply kb_fetchRecords.
      + apply kb_onAddClick.
      + apply kb_onEditClick.
      + apply kb_onCancelClick.
      + apply kb_handleImageUpload.
      + apply kb_handleImageDelete.
      + apply kb_handleDelete. }
    destruct Hkeep as [m' Hm']. exists m'. split; [exact Hm'|].
    intros Hl. unfold renderProperties, view. rewrite Hl, Hm'. eauto.
  - intros B w actions m Hns Hm st'.
    assert (Hkeep : is_Some (error st')).
    { apply (kb_interact (plotsReact B)); [|exact Hns|rewrite Hm; eauto].
      intros st a Ha. destruct a; try discriminate; simpl.
      + apply kb_fetchRecords.
      + apply kb_onAddClick.
      + apply kb_onEditClick.
      + apply kb_onCancelClick.
      + apply kb_handleImageUpload.
      + apply kb_handleImageDelete.
      + apply kb_handleDelete. }
    destruct Hkeep as [m' Hm']. exists m'. split; [exact Hm'|].
    intros Hl. unfold renderPlots, view. rewrite Hl, Hm'. eauto.
Qed.

(** * From the buttons to the write *)

Lemma submit_starts_with_write {R : Type} `{Row R} (B : Backend R) (table : string)
    (w : World R) (st : State R) (rowData : Payload) :
  exists rest,
    trace (fst ((setError None ;; submit B table st rowData) w))
    = trace w ++ Issued (submitCall table st rowData) :: rest.
Proof.
  destruct w as [tr st0].
  pose proof (cleared_submit_run B table tr st0 st rowData) as Hrun. cbv zeta in Hrun.
  destruct (submitError B table st rowData _) as [m|].
  - destruct Hrun as (-> & _). eexists. reflexivity.
  - destruct Hrun as ((ok & ->) & _). eexists. reflexivity.
Qed.

(** X15: what a submission writes is decided by the button that opened the
    form.  After the pencil button of a row, it is an update of that row's
    id carrying that row's images; after "Add", it is an insert of one row
    with no images, whatever was being edited before.  "Cancel" only hides
    the form and keeps the draft. *)
Theorem write_follows_the_button :
  (forall B type w r fd,
     let w' := interact (propertiesReact B type) w [EditClicked r; Submitted fd] in
     exists row rest,
       trace w' = trace w ++ Issued (Update (PropertiesManager.tableName type) row
                                       (PropertiesManager.id r)) :: rest
       /\ row !! "images" = Some (JArray (PropertiesManager.images r))) /\
  (forall B type w fd,
     let w' := interact (propertiesReact B type) w [AddClicked; Submitted fd] in
     exists row rest,
       trace w' = trace w ++ Issued (Insert (PropertiesManager.tableName type) [row]) :: rest
       /\ row !! "images" = Some (JArray [])) /\
  (forall B type w r,
     let w' := interact (propertiesReact B type) w [EditClicked r; CancelClicked] in
     trace w' = trace w /\ showForm (ui w') = false /\ editing (ui w') = Some r) /\
  (forall B w r fd,
     let w' := interact (plotsReact B) w [EditClicked r; Submitted fd] in
     exists row rest,
       trace w' = trace w ++ Issued (Update "plots" row (PlotsManager.id r)) :: rest
       /\ row !! "images" = Some (JArray (PlotsManager.images r))) /\
  (forall B w fd,
     let w' := interact (plotsReact B) w [AddClicked; Submitted fd] in
     exists row rest,
       trace w' = trace w ++ Issued (Insert "plots" [row]) :: rest
       /\ row !! "images" = Some (JArray [])) /\
  (forall B w r,
     let w' := interact (plotsReact B) w [EditClicked r; CancelClicked] in
     trace w' = trace w /\ showForm (ui w') = false /\ editing (ui w') = Some r).
Proof.
  split; [|split; [|split; [|split; [|split]]]].
  - intros B type [tr st0] r fd w'. subst w'.
    cbn [interact fold_left propertiesReact onEditClick].
    unfold PropertiesManager.handleSubmit.
    set (w1 := fst (_ {| trace := tr; ui := st0 |})).
    destruct (submit_starts_with_write B (PropertiesManager.tableName type) w1 (ui w1)
                (PropertiesManager.propertyData (ui w1) fd)) as [rest Hrest].
    eexists. exists rest. split; [exact Hrest|reflexivity].
  - intros B type [tr st0] fd w'. subst w'.
    cbn [interact fold_left propertiesReact onAddClick].
    unfold PropertiesManager.handleSubmit.
    set (w1 := fst (_ {| trace := tr; ui := st0 |})).
    destruct (submit_starts_with_write B (PropertiesManager.tableName type) w1 (ui w1)
                (PropertiesManager.propertyData (ui w1) fd)) as [rest Hrest].
    eexists. exists rest. split; [exact Hrest|reflexivity].
  - intros B type [tr st0] r w'. repeat split.
  - intros B [tr st0] r fd w'. subst w'.
    cbn [interact fold_left plotsReact onEditClick].
    unfold PlotsManager.handleSubmit.
    set (w1 := fst (_ {| trace := tr; ui := st0 |})).
    destruct (submit_starts_with_write B "plots" w1 (ui w1)
                (PlotsManager.plotData (ui w1) fd)) as [rest Hrest].
    eexists. exists rest. split; [exact Hrest|reflexivity].
  - intros B [tr st0] fd w'. subst w'.
    cbn [interact fold_left plotsReact onAddClick].
    unfold PlotsManager.handleSubmit.
    set (w1 := fst (_ {| trace := tr; ui := st0 |})).
    destruct (submit_starts_with_write B "plots" w1 (ui w1)
                (PlotsManager.plotData (ui w1) fd)) as [rest Hrest].
    eexists. exists rest. split; [exact Hrest|reflexivity].
  - intros B [tr st0] r w'. repeat split.
Qed.

Lemma error_reset_by_submit_only_witness :
  let w := Samples.start (Scenes.withBanner [Samples.R1] "Failed to fetch") in
  let actions := [Mounted; EditClicked Samples.R1; CancelClicked;
                  DeleteClicked "R1" true] in
  forallb notSubmit actions = true /\
  error (ui w) = Some "Failed to fetch" /\
  exists m', error (ui (interact (propertiesReact (Samples.accepting [])
                                    PropertiesManager.resale) w actions)) = Some m'.
Proof.
  intros w actions.
  assert (Hns : forallb notSubmit actions = true) by reflexivity.
  assert (Hm : error (ui w) = Some "Failed to fetch") by reflexivity.
  split; [exact Hns|]. split; [exact Hm|].
  destruct (proj1 error_reset_by_submit_only (Samples.accepting [])
              PropertiesManager.resale w actions "Failed to fetch" Hns Hm)
    as (m' & Hm' & _).
  exists m'. exact Hm'.
Defined.

(** * Images without a record, and updates that fail *)

Section ImageEdges.
Context {R : Type} `{Row R}.
Variable B : Backend R.
Variable table : string.
Variable bucket : string.
Variable uploadPath : option R -> string.
Implicit Types (tr : list Event) (st : State R).

Lemma upload_without_record tr st0 st files :
  editing st = None ->
  let w' := fst (handleImageUpload B table bucket uploadPath st files
                   {| trace := tr; ui := st0 |}) in
  exists evs,
    trace w' = tr ++ evs
    /\ Forall (fun e => exists f, call_of e = UploadImage f bucket (uploadPath None)) evs
    /\ editing (ui w') = editing st0.
Proof.
  intros Hed w'.
  pose proof (handleImageUpload_run B table bucket uploadPath tr st0 st files) as Hrun.
  cbv zeta in Hrun. set (s := settlements _ _ _ _) in *.
  assert (Hevs : Forall (fun e => exists f, call_of e = UploadImage f bucket (uploadPath None))
                   (map (fun f => Issued (uploadCall bucket uploadPath st f)) files ++ fst s)).
  { apply Forall_app. split; apply List.Forall_forall; intros e He.
    - apply in_map_iff in He as (f & <- & _). exists f. simpl. unfold uploadCall.
      now rewrite Hed.
    - destruct (settlements_events _ _ _ _ _ He) as (f & ok & _ & ->). exists f.
      simpl. unfold uploadCall. now rewrite Hed. }
  subst w'. destruct (snd s) as [urls|m].
  - rewrite Hed in Hrun. rewrite Hrun. eexists. split; [reflexivity|]. split; [exact Hevs|].
    reflexivity.
  - rewrite Hrun. eexists. split; [reflexivity|]. split; [exact Hevs|]. reflexivity.
Qed.

(** the image-add run with the settlement of its update spelled out *)
Lemma handleImageUpload_persist tr st0 st files ed urls :
  editing st = Some ed ->
  let issued := map (fun f => Issued (uploadCall bucket uploadPath st f)) files in
  let s := settlements (uploadCall bucket uploadPath st)
             (fun h f => uploadImage B h f bucket (uploadPath (editing st)))
             (tr ++ issued) files in
  snd s = Resolved urls ->
  let values : Payload := {[ "images" := JArray (row_images ed ++ urls) ]} in
  let upd := Update table values (row_id ed) in
  handleImageUpload B table bucket uploadPath st files {| trace := tr; ui := st0 |}
  = ({| trace := tr ++ issued ++ fst s
                   ++ [Issued upd;
                       Settled upd (no_error (update B (tr ++ issued ++ fst s ++ [Issued upd])
                                                table values (row_id ed)))];
        ui := {| records := records st0; loading := loading st0; error := error st0;
                 editing := Some (with_images ed (row_images ed ++ urls));
                 showForm := showForm st0 |} |}, Resolved tt).
Proof.
  intros Hed issued s Hurls values upd.
  assert (Hall : Promise_all (uploadCall bucket uploadPath st)
                   (fun h f => uploadImage B h f bucket (uploadPath (editing st)))
                   files {| trace := tr; ui := st0 |}
                 = ({| trace := tr ++ issued ++ fst s; ui := st0 |}, snd s))
    by apply Promise_all_run.
  unfold handleImageUpload, try_catch. unfold bind at 1.
  rewrite Hall, Hurls, Hed. run_async. rewrite <- !app_assoc. reflexivity.
Qed.

Lemma handleImageDelete_persist tr st0 st url ed :
  editing st = Some ed ->
  let del := DeleteImage bucket url in
  deleteImage B (tr ++ [Issued del]) bucket url = Resolved tt ->
  let kept := List.filter (fun img => negb (String.eqb img url)) (row_images ed) in
  let values : Payload := {[ "images" := JArray kept ]} in
  let upd := Update table values (row_id ed) in
  handleImageDelete B table bucket st url {| trace := tr; ui := st0 |}
  = ({| trace := tr ++ [Issued del; Settled del true; Issued upd;
                        Settled upd (no_error (update B (tr ++ [Issued del; Settled del true;
                                                                Issued upd])
                                                 table values (row_id ed)))];
        ui := {| records := records st0; loading := loading st0; error := error st0;
                 editing := Some (with_images ed kept);
                 showForm := showForm st0 |} |}, Resolved tt).
Proof.
  intros Hed del Hdel kept values upd.
  unfold handleImageDelete. run_async. fold del. rewrite Hdel, Hed.
  cbn [resolved]. run_async. rewrite <- !app_assoc. reflexivity.
Qed.

(** X17: the image handlers do not look at the response of their update.
    When the record store refuses to persist the new [images], the draft
    still shows the new sequence and no message appears: the draft and the
    stored record then differ, silently. *)
Theorem image_update_errors_are_swallowed tr st0 st ed :
  editing st = Some ed ->
  (forall files urls message,
     let issued := map (fun f => Issued (uploadCall bucket uploadPath st f)) files in
     let s := settlements (uploadCall bucket uploadPath st)
                (fun h f => uploadImage B h f bucket (uploadPath (editing st)))
                (tr ++ issued) files in
     let values : Payload := {[ "images" := JArray (row_images ed ++ urls) ]} in
     let upd := Update table values (row_id ed) in
     let w' := fst (handleImageUpload B table bucket uploadPath st files
                      {| trace := tr; ui := st0 |}) in
     snd s = Resolved urls ->
     update B (tr ++ issued ++ fst s ++ [Issued upd]) table values (row_id ed)
     = Some message ->
     In (Settled upd false) (trace w') /\
     error (ui w') = error st0 /\
     editing (ui w') = Some (with_images ed (row_images ed ++ urls))) /\
  (forall url message,
     let del := DeleteImage bucket url in
     let kept := List.filter (fun img => negb (String.eqb img url)) (row_images ed) in
     let values : Payload := {[ "images" := JArray kept ]} in
     let upd := Update table values (row_id ed) in
     let w' := fst (handleImageDelete B table bucket st url {| trace := tr; ui := st0 |}) in
     deleteImage B (tr ++ [Issued del]) bucket url = Resolved tt ->
     update B (tr ++ [Issued del; Settled del true; Issued upd]) table values (row_id ed)
     = Some message ->
     In (Settled upd false) (trace w') /\
     error (ui w') = error st0 /\
     editing (ui w') = Some (with_images ed kept)).
Proof.
  intros Hed. split.
  - intros files urls message issued s values upd w' Hurls Hupd. subst w'.
    rewrite (handleImageUpload_persist tr st0 st files ed urls Hed Hurls).
    cbn [fst trace ui error editing]. fold issued. fold s. fold values. fold upd.
    rewrite Hupd. cbn [no_error]. split; [|split; reflexivity].
    apply in_or_app. right. apply in_or_app. right. apply in_or_app. right.
    right. now left.
  - intros url message del kept values upd w' Hdel Hupd. subst w'.
    rewrite (handleImageDelete_persist tr st0 st url ed Hed Hdel).
    cbn [fst trace ui error editing]. fold del. fold kept. fold values. fold upd.
    rewrite Hupd. cbn [no_error]. split; [|split; reflexivity].
    apply in_or_app. right. right. right. right. now left.
Qed.

End ImageEdges.

Lemma image_update_errors_are_swallowed_witness :
  let st := Samples.blank [Samples.R1] (Some Samples.R1) in
  let b := Samples.publicUrl "properties" "resale/R1" "b.png" in
  let w' := fst (PropertiesManager.handleImageUpload (Scenes.refusingUpdates [Samples.R1])
                   PropertiesManager.resale st [Samples.photo2] (Samples.start st)) in
  editing st = Some Samples.R1 /\
  error (ui w') = None /\
  (exists p, editing (ui w') = Some p
             /\ PropertiesManager.images p = PropertiesManager.images Samples.R1 ++ [b]).
Proof.
  intros st b w'. split; [reflexivity|].
  destruct (image_update_errors_are_swallowed (Scenes.refusingUpdates [Samples.R1])
              "resale_properties" "properties"
              (fun ed => ("resale" ++ "/" ++ id_or_new ed)%string)
              [] st st Samples.R1 eq_refl) as [Hup _].
  destruct (Hup [Samples.photo2] [b] "permission denied for table" eq_refl eq_refl)
    as (_ & He & Hd).
  split; [exact He|]. eexists. split; [exact Hd|reflexivity].
Defined.

(** X16: images chosen while a new record is being created belong to no
    record.  After "Add", the uploads go to the path ending in "new", no
    record-store call follows them, and the insert the submission then
    sends has an empty [images], whatever the uploads returned. *)
Theorem images_chosen_before_creation_are_dropped :
  (forall B type w files fd,
     let w' := interact (propertiesReact B type) w
                 [AddClicked; FilesChosen files; Submitted fd] in
     exists evs row rest,
       trace w' = trace w ++ evs
                    ++ Issued (Insert (PropertiesManager.tableName type) [row]) :: rest
       /\ Forall (fun e => exists f,
                    call_of e = UploadImage f "properties"
                                  (PropertiesManager.type_string type ++ "/new")%string) evs
       /\ row !! "images" = Some (JArray [])) /\
  (forall B w files fd,
     let w' := interact (plotsReact B) w [AddClicked; FilesChosen files; Submitted fd] in
     exists evs row rest,
       trace w' = trace w ++ evs ++ Issued (Insert "plots" [row]) :: rest
       /\ Forall (fun e => exists f, call_of e = UploadImage f "plots" "new") evs
       /\ row !! "images" = Some (JArray [])).
Proof.
  split.
  - intros B type [tr st0] files fd w'. subst w'.
    cbn [interact fold_left propertiesReact onAddClick].
    set (w0 := fst ((setEditing None ;; setShowForm true) {| trace := tr; ui := st0 |})).
    destruct (upload_without_record B (PropertiesManager.tableName type) "properties"
                (fun ed => (PropertiesManager.type_string type ++ "/" ++ id_or_new ed)%string)
                (trace w0) (ui w0) (ui w0) files eq_refl) as (evs & Htr & Hevs & Hed).
    set (w1 := fst (PropertiesManager.handleImageUpload B type (ui w0) files w0)) in *.
    change (fst (handleImageUpload B (PropertiesManager.tableName type) "properties"
                   (fun ed => (PropertiesManager.type_string type ++ "/" ++ id_or_new ed)%string)
                   (ui w0) files {| trace := trace w0; ui := ui w0 |})) with w1 in Htr, Hed.
    unfold PropertiesManager.handleSubmit.
    destruct (submit_starts_with_write B (PropertiesManager.tableName type) w1 (ui w1)
                (PropertiesManager.propertyData (ui w1) fd)) as [rest Hrest].
    assert (Hnone : editing (ui w1) = None) by (rewrite Hed; reflexivity).
    unfold submitCall in Hrest. rewrite Hnone in Hrest.
    exists evs, (PropertiesManager.propertyData (ui w1) fd), rest.
    split; [etrans; [exact Hrest|]; rewrite Htr, <- app_assoc; reflexivity|].
    split; [exact Hevs|].
    assert (Himg : PropertiesManager.propertyData (ui w1) fd !! "images"
                   = Some (JArray (match editing (ui w1) with
                                   | Some ed => PropertiesManager.images ed
                                   | None => []
                                   end))) by reflexivity.
    rewrite Himg, Hnone. reflexivity.
  - intros B [tr st0] files fd w'. subst w'.
    cbn [interact fold_left plotsReact onAddClick].
    set (w0 := fst ((setEditing None ;; setShowForm true) {| trace := tr; ui := st0 |})).
    destruct (upload_without_record B "plots" "plots" id_or_new
                (trace w0) (ui w0) (ui w0) files eq_refl) as (evs & Htr & Hevs & Hed).
    set (w1 := fst (PlotsManager.handleImageUpload B (ui w0) files w0)) in *.
    change (fst (handleImageUpload B "plots" "plots" id_or_new
                   (ui w0) files {| trace := trace w0; ui := ui w0 |})) with w1 in Htr, Hed.
    unfold PlotsManager.handleSubmit.
    destruct (submit_starts_with_write B "plots" w1 (ui w1)
                (PlotsManager.plotData (ui w1) fd)) as [rest Hrest].
    assert (Hnone : editing (ui w1) = None) by (rewrite Hed; reflexivity).
    unfold submitCall in Hrest. rewrite Hnone in Hrest.
    exists evs, (PlotsManager.plotData (ui w1) fd), rest.
    split; [etrans; [exact Hrest|]; rewrite Htr, <- app_assoc; reflexivity|].
    split; [exact Hevs|].
    assert (Himg : PlotsManager.plotData (ui w1) fd !! "images"
                   = Some (JArray (match editing (ui w1) with
                                   | Some ed => PlotsManager.images ed
                                   | None => []
                                   end))) by reflexivity.
    rewrite Himg, Hnone. reflexivity.
Qed.

(** * Removing images, and the delete cascade when something fails *)

Lemma filter_other_urls (url : string) (l : list string) :
  let kept := List.filter (fun img => negb (String.eqb img url)) l in
  (forall v, In v kept <-> In v l /\ v <> url)
  /\ sublist kept l
  /\ (~ In url l -> kept = l).
Proof.
  intros kept. subst kept. split; [|split].
  - intros v. rewrite filter_In. rewrite negb_true_iff, String.eqb_neq. reflexivity.
  - induction l as [|x l IH]; simpl; [constructor|].
    destruct (negb (x =? url)%string); [now apply sublist_skip|now apply sublist_cons].
  - induction l as [|x l IH]; simpl; [reflexivity|].
    intros Hnot. destruct (String.eqb_spec x url) as [->|Hne]; simpl.
    + exfalso. apply Hnot. now left.
    + f_equal. apply IH. intros Hin. apply Hnot. now right.
Qed.

Lemma filter_counts (url : string) (l : list string) :
  let kept := List.filter (fun img => negb (String.eqb img url)) l in
  count_occ string_dec kept url = 0
  /\ (forall v, v <> url -> count_occ string_dec kept v = count_occ string_dec l v).
Proof.
  intros kept. subst kept. split.
  - apply count_occ_not_In. rewrite filter_In. intros [_ Hne].
    now rewrite String.eqb_refl in Hne.
  - intros v Hv. induction l as [|x l IH]; [reflexivity|]. simpl.
    destruct (String.eqb_spec x url) as [->|Hne]; simpl.
    + destruct (string_dec url v) as [Heq|_]; [congruence|exact IH].
    + destruct (string_dec x v); now rewrite IH.
Qed.

Section RemovalAndCascade.
Context {R : Type} `{Row R}.
Variable B : Backend R.
Variable table : string.
Variable bucket : string.
Variable uploadPath : option R -> string.
Implicit Types (tr : list Event) (st : State R).

(** X18: removing an image takes out every occurrence of that URL and
    nothing else.  The sequence left in the draft, which is the one sent to
    the store, is the old one filtered of that URL: the URL no longer occurs
    in it, every other URL occurs as many times as before, and the order is
    the old one; removing a URL the record does not hold still deletes the
    object and rewrites the same sequence. *)
Theorem image_remove_keeps_the_rest tr st0 st url ed :
  editing st = Some ed ->
  deleteImage B (tr ++ [Issued (DeleteImage bucket url)]) bucket url = Resolved tt ->
  let w' := fst (handleImageDelete B table bucket st url {| trace := tr; ui := st0 |}) in
  let kept := List.filter (fun img => negb (String.eqb img url)) (row_images ed) in
  (exists draft,
     editing (ui w') = Some draft /\ row_images draft = kept
     /\ row_id draft = row_id ed) /\
  In (Issued (Update table {[ "images" := JArray kept ]} (row_id ed))) (trace w') /\
  count_occ string_dec kept url = 0 /\
  (forall v, v <> url ->
     count_occ string_dec kept v = count_occ string_dec (row_images ed) v) /\
  sublist kept (row_images ed) /\
  (~ In url (row_images ed) -> kept = row_images ed).
Proof.
  intros Hed Hdel w' kept. subst w'.
  rewrite (handleImageDelete_persist B table bucket tr st0 st url ed Hed Hdel).
  cbn [fst trace ui editing]. fold kept.
  destruct (filter_other_urls url (row_images ed)) as (_ & Hsub & Hsame).
  destruct (filter_counts url (row_images ed)) as (Hzero & Hothers).
  split.
  { eexists. split; [reflexivity|].
    split; [apply row_images_with|apply row_id_with]. }
  split; [apply in_or_app; right; right; right; now left|].
  split; [exact Hzero|]. split; [exact Hothers|]. split; [exact Hsub|exact Hsame].
Qed.

Lemma filter_appended (url : string) (l : list string) :
  ~ In url l ->
  List.filter (fun img => negb (String.eqb img url)) (l ++ [url]) = l.
Proof.
  intros Hnot. rewrite List.filter_app. simpl. rewrite String.eqb_refl. simpl.
  rewrite app_nil_r. now apply filter_other_urls.
Qed.

(** X19: adding one file and then removing the image it produced brings the
    record's images back: when the upload returns a URL the record did not
    hold and the storage delete of that URL resolves, the draft ends with
    the sequence it started with, and that sequence is the last one sent to
    the store. *)
Theorem add_then_remove_restores_images tr st0 ed file u :
  editing st0 = Some ed ->
  let up := uploadCall bucket uploadPath st0 file in
  uploadImage B (tr ++ [Issued up]) file bucket (uploadPath (editing st0)) = Resolved u ->
  ~ In u (row_images ed) ->
  (forall h, deleteImage B h bucket u = Resolved tt) ->
  let w1 := fst (handleImageUpload B table bucket uploadPath st0 [file]
                   {| trace := tr; ui := st0 |}) in
  let w2 := fst (handleImageDelete B table bucket (ui w1) u w1) in
  (exists mid, editing (ui w1) = Some mid /\ row_images mid = row_images ed ++ [u]) /\
  (exists draft ok pre,
     editing (ui w2) = Some draft /\ row_images draft = row_images ed
     /\ row_id draft = row_id ed
     /\ trace w2 = pre ++ [Issued (Update table {[ "images" := JArray (row_images ed) ]}
                                     (row_id ed));
                           Settled (Update table {[ "images" := JArray (row_images ed) ]}
                                      (row_id ed)) ok]).
Proof.
  intros Hed up Hup Hfresh Hdel w1 w2.
  assert (Hurls : snd (settlements (uploadCall bucket uploadPath st0)
                         (fun h f => uploadImage B h f bucket (uploadPath (editing st0)))
                         (tr ++ map (fun f => Issued (uploadCall bucket uploadPath st0 f)) [file])
                         [file]) = Resolved [u]).
  { simpl. fold up. now rewrite Hup. }
  pose proof (handleImageUpload_persist B table bucket uploadPath tr st0 st0 [file] ed [u]
                Hed Hurls) as H1.
  cbv zeta in H1.
  assert (Hw1 : w1 = fst (handleImageUpload B table bucket uploadPath st0 [file]
                            {| trace := tr; ui := st0 |})) by reflexivity.
  rewrite H1 in Hw1. cbn [fst] in Hw1.
  split.
  - rewrite Hw1. cbn [ui editing]. eexists. split; [reflexivity|]. apply row_images_with.
  - subst w2. rewrite Hw1. cbn [ui trace].
    match goal with
    | |- context [handleImageDelete B table bucket ?s u {| trace := ?t; ui := ?s0 |}] =>
        assert (Hmid : editing s = Some (with_images ed (row_images ed ++ [u])))
          by reflexivity;
        rewrite (handleImageDelete_persist B table bucket t s0 s u
                   (with_images ed (row_images ed ++ [u])) Hmid (Hdel _))
    end.
    cbn [fst ui trace editing].
    rewrite row_images_with, row_id_with, (filter_appended u (row_images ed) Hfresh).
    eexists. eexists. eexists.
    split; [reflexivity|]. split; [apply row_images_with|].
    split; [now rewrite !row_id_with|].
    etrans; [apply (app_assoc _ [_; _] [_; _])|reflexivity].
Qed.

(** X20: the record delete is sent exactly when the user confirmed, the id
    is that of a listed record and every one of its storage deletes
    resolved; a single rejected storage delete, an unlisted id or a
    declined confirmation means no record delete. *)
Theorem record_delete_needs_every_image_delete tr st0 st confirmed id :
  let w' := fst (handleDelete B table bucket st confirmed id {| trace := tr; ui := st0 |}) in
  exists evs,
    trace w' = tr ++ evs /\
    (In (Issued (Delete table id)) evs <->
     confirmed = true /\
     exists property urls,
       List.find (fun p => String.eqb (row_id p) id) (records st) = Some property /\
       snd (settlements (DeleteImage bucket) (fun h u => deleteImage B h bucket u)
              (tr ++ map (fun u => Issued (DeleteImage bucket u)) (row_images property))
              (row_images property)) = Resolved urls).
Proof.
  intros w'. subst w'. destruct confirmed.
  - destruct (List.find (fun p => String.eqb (row_id p) id) (records st))
      as [property|] eqn:Hfind.
    + pose proof (handleDelete_run B table bucket tr st0 st id property Hfind) as Hrun.
      cbv zeta in Hrun. set (s := settlements _ _ _ _) in *.
      assert (Hnot : ~ In (Issued (Delete table id))
                       (map (fun u => Issued (DeleteImage bucket u)) (row_images property)
                        ++ fst s)).
      { intros [Hin|Hin]%in_app_or.
        - apply in_map_iff in Hin as (? & [=] & _).
        - destruct (settlements_events _ _ _ _ _ Hin) as (? & ? & _ & [=]). }
      destruct (snd s) as [urls|m] eqn:Es.
      * assert (Hin : forall rest,
                  In (Issued (Delete table id))
                    (map (fun u => Issued (DeleteImage bucket u)) (row_images property)
                     ++ fst s ++ Issued (Delete table id) :: rest)).
        { intros rest. apply in_or_app. right. apply in_or_app. right. now left. }
        destruct (delete B _ table id) as [m|].
        -- rewrite Hrun. eexists. split; [reflexivity|].
           split; [intros _; split; [reflexivity|]; eauto|intros _; apply Hin].
        -- destruct Hrun as (ok & st' & ->). eexists. split; [reflexivity|].
           split; [intros _; split; [reflexivity|]; eauto|intros _; apply Hin].
      * rewrite Hrun. eexists. split; [reflexivity|]. split; [intros Hin; now destruct Hnot|].
        intros (_ & p & urls & [= <-] & Hres). fold s in Hres. congruence.
    + exists []. rewrite (handleDelete_unlisted B table bucket tr st0 st id Hfind).
      split; [now rewrite app_nil_r|]. split; [intros []|].
      intros (_ & p & urls & [=] & _).
  - exists []. rewrite handleDelete_declined. cbn [fst trace].
    split; [now rewrite app_nil_r|]. split; [intros []|]. intros ([=] & _).
Qed.

(** X21: a cascade that fails half-way leaves its first half done.  When a
    storage delete is rejected, every image's delete had been started all
    the same, the record is not deleted and the message is shown.  When the
    record delete itself reports an error, all the images are already gone,
    the record stays in the list (which is not refetched) and the message
    is shown. *)
Theorem failed_cascade_is_not_undone tr st0 st id property :
  List.find (fun p => String.eqb (row_id p) id) (records st) = Some property ->
  let started := map (fun u => Issued (DeleteImage bucket u)) (row_images property) in
  let s := settlements (DeleteImage bucket) (fun h u => deleteImage B h bucket u)
             (tr ++ started) (row_images property) in
  let del := Delete table id in
  let w' := fst (handleDelete B table bucket st true id {| trace := tr; ui := st0 |}) in
  (forall m, snd s = Rejected m ->
     trace w' = tr ++ started ++ fst s /\
     length started = length (row_images property) /\
     error (ui w') = Some m /\ records (ui w') = records st0) /\
  (forall urls m,
     snd s = Resolved urls ->
     delete B ((tr ++ started ++ fst s) ++ [Issued del]) table id = Some m ->
     trace w' = tr ++ started
                   ++ map (fun u => Settled (DeleteImage bucket u) true) (row_images property)
                   ++ [Issued del; Settled del false] /\
     error (ui w') = Some m /\ records (ui w') = records st0).
Proof.
  intros Hfind started s del w'.
  pose proof (handleDelete_run B table bucket tr st0 st id property Hfind) as Hrun.
  cbv zeta in Hrun. fold started in Hrun. fold s in Hrun. fold del in Hrun.
  split.
  - intros m Hm. rewrite Hm in Hrun. subst w'. rewrite Hrun. cbn [fst trace ui error records].
    split; [reflexivity|]. split; [subst started; now rewrite length_map|]. auto.
  - intros urls m Hres Hdel. rewrite Hres, Hdel in Hrun. subst w'. rewrite Hrun.
    cbn [fst trace ui error records].
    destruct (settlements_resolved _ _ _ _ _ Hres) as [Hev _]. fold s in Hev.
    rewrite Hev. auto.
Qed.

End RemovalAndCascade.

Lemma image_remove_keeps_the_rest_witness :
  let st := Samples.blank [Samples.P1] (Some Samples.P1) in
  let a := Samples.publicUrl "plots" "P1" "a.png" in
  let b := Samples.publicUrl "plots" "P1" "b.png" in
  let w' := fst (PlotsManager.handleImageDelete (Samples.accepting [Samples.P1]) st a
                   (Samples.start st)) in
  editing st = Some Samples.P1 /\
  deleteImage (Samples.accepting [Samples.P1]) [Issued (DeleteImage "plots" a)] "plots" a
  = Resolved tt /\
  exists draft, editing (ui w') = Some draft /\ PlotsManager.images draft = [b].
Proof.
  intros st a b w'. split; [reflexivity|]. split; [reflexivity|].
  destruct (image_remove_keeps_the_rest (H := PlotsManager.Plot_Row)
              (Samples.accepting [Samples.P1]) "plots" "plots"
              [] st st a Samples.P1 eq_refl eq_refl)
    as ((draft & Hd & Hk & _) & _).
  exists draft. split; [exact Hd|exact Hk].
Defined.

Lemma add_then_remove_restores_images_witness :
  let st := Samples.blank [Samples.R1] (Some Samples.R1) in
  let b := Samples.publicUrl "properties" "resale/R1" "b.png" in
  let B := Samples.accepting [Samples.R1] in
  let w1 := fst (PropertiesManager.handleImageUpload B PropertiesManager.resale st
                   [Samples.photo2] (Samples.start st)) in
  let w2 := fst (PropertiesManager.handleImageDelete B PropertiesManager.resale (ui w1) b w1) in
  editing st = Some Samples.R1 /\
  ~ In b (PropertiesManager.images Samples.R1) /\
  exists draft, editing (ui w2) = Some draft
                /\ PropertiesManager.images draft = PropertiesManager.images Samples.R1.
Proof.
  intros st b B w1 w2.
  assert (Hfresh : ~ In b (PropertiesManager.images Samples.R1)).
  { intros [Heq|[]]. vm_compute in Heq. discriminate Heq. }
  split; [reflexivity|]. split; [exact Hfresh|].
  assert (Hup : uploadImage B
                  ([] ++ [Issued (uploadCall "properties"
                                    (fun ed => ("resale" ++ "/" ++ id_or_new ed)%string)
                                    st Samples.photo2)])
                  Samples.photo2 "properties"
                  ("resale" ++ "/" ++ id_or_new (editing st))%string
                = Resolved b) by reflexivity.
  destruct (add_then_remove_restores_images (H := PropertiesManager.Property_Row)
              B "resale_properties" "properties"
              (fun ed => ("resale" ++ "/" ++ id_or_new ed)%string)
              [] st Samples.R1 Samples.photo2 b eq_refl Hup Hfresh (fun _ => eq_refl))
    as (_ & draft & ok & pre & Hd & Hi & _).
  exists draft. split; [exact Hd|exact Hi].
Defined.

Lemma failed_cascade_is_not_undone_witness :
  let st := Samples.blank [Samples.P1] None in
  let a := Samples.publicUrl "plots" "P1" "a.png" in
  let b := Samples.publicUrl "plots" "P1" "b.png" in
  let del := Delete "plots" "P1" in
  let w' := fst (PlotsManager.handleDelete (Scenes.refusingDeletes [Samples.P1]) st true "P1"
                   (Samples.start st)) in
  let w'' := fst (PlotsManager.handleDelete (Scenes.brokenStorage [Samples.P1]) st true "P1"
                    (Samples.start st)) in
  List.find (fun p => String.eqb (row_id p) "P1") (records st) = Some Samples.P1 /\
  trace w' = [Issued (DeleteImage "plots" a); Issued (DeleteImage "plots" b);
              Settled (DeleteImage "plots" a) true; Settled (DeleteImage "plots" b) true;
              Issued del; Settled del false] /\
  records (ui w') = [Samples.P1] /\
  trace w'' = [Issued (DeleteImage "plots" a); Issued (DeleteImage "plots" b);
               Settled (DeleteImage "plots" a) false] /\
  error (ui w'') = Some "Failed to fetch".
Proof.
  intros st a b del w' w''.
  assert (Hfind : List.find (fun p => String.eqb (row_id p) "P1") (records st)
                  = Some Samples.P1) by reflexivity.
  split; [exact Hfind|].
  destruct (failed_cascade_is_not_undone (Scenes.refusingDeletes [Samples.P1])
              "plots" "plots" [] st st "P1" Samples.P1 Hfind) as [_ Hrec].
  destruct (Hrec [tt; tt] "permission denied for table" eq_refl eq_refl)
    as (Htr & _ & Hrows).
  destruct (failed_cascade_is_not_undone (Scenes.brokenStorage [Samples.P1])
              "plots" "plots" [] st st "P1" Samples.P1 Hfind) as [Hsto _].
  destruct (Hsto "Failed to fetch" eq_refl) as (Htr2 & _ & Herr & _).
  split; [exact Htr|]. split; [exact Hrows|]. split; [exact Htr2|exact Herr].
Defined.

(** * Which texts become [NaN] *)

Lemma DecimalDigits_count (s : string) (acc n : Z) :
  (n <= snd (fst (JS.DecimalDigits s acc n)))%Z.
Proof.
  revert acc n. induction s as [|c r IH]; intros acc n; simpl; [lia|].
  destruct (JS.DecimalDigit c); simpl; [|lia].
  specialize (IH (10 * acc + z)%Z (n + 1)%Z). lia.
Qed.

Lemma fraction_count (s : string) :
  (0 <= snd (fst (match s with
                  | String "." r => JS.DecimalDigits r 0 0
                  | _ => (0%Z, 0%Z, s)
                  end)))%Z.
Proof.
  destruct s as [|c r]; [simpl; lia|].
  destruct c as [[] [] [] [] [] [] [] []]; simpl; try lia; apply DecimalDigits_count.
Qed.

(** the part of [parseFloat] after white space and sign *)
Lemma unsigned_literal_NaN (neg : bool) (s : string) :
  JS.isNaN
    (if String.prefix "Infinity" s then Infinity neg else
     let '(ip, ni, s1) := JS.DecimalDigits s 0 0 in
     let '(fp, nf, s2) :=
       match s1 with
       | String "." r => JS.DecimalDigits r 0 0
       | _ => (0%Z, 0%Z, s1)
       end in
     if (ni + nf =? 0)%Z then NaN else
     let m := (ip * 10 ^ nf + fp)%Z in
     Finite (JS.scale10 (if neg then - m else m) (JS.ExponentPart s2 - nf)))
  = negb
      (if String.prefix "Infinity" s then true else
       match s with
       | String c r =>
           match JS.DecimalDigit c with
           | Some _ => true
           | None =>
               if Ascii.eqb c "."
               then match r with
                    | String d _ => bool_decide (is_Some (JS.DecimalDigit d))
                    | EmptyString => false
                    end
               else false
           end
       | EmptyString => false
       end).
Proof.
  destruct (String.prefix "Infinity" s); [reflexivity|].
  destruct s as [|c r]; [reflexivity|].
  destruct (JS.DecimalDigit c) as [d|] eqn:Ec.
  - (* a digit first: at least one digit is read *)
    simpl. rewrite Ec.
    pose proof (DecimalDigits_count r (10 * 0 + d) (0 + 1)) as Hn.
    destruct (JS.DecimalDigits r (10 * 0 + d) (0 + 1)) as [[ip ni] s1]. simpl in Hn.
    pose proof (fraction_count s1) as Hf.
    destruct (match s1 with String "." r0 => _ | _ => _ end) as [[fp nf] s2].
    simpl in Hf.
    destruct (Z.eqb_spec (ni + nf) 0); [lia|reflexivity].
  - simpl JS.DecimalDigits. rewrite Ec.
    destruct (Ascii.eqb_spec c ".") as [->|Hne].
    + destruct r as [|d r']; [reflexivity|].
      destruct (JS.DecimalDigit d) as [v|] eqn:Ed.
      * cbn -[JS.DecimalDigit Z.add Z.mul Z.eqb Z.pow JS.scale10 JS.ExponentPart].
        rewrite Ed.
        pose proof (DecimalDigits_count r' (10 * 0 + v) (0 + 1)) as Hn.
        destruct (JS.DecimalDigits r' (10 * 0 + v) (0 + 1)) as [[fp nf] s2]. simpl in Hn.
        destruct (Z.eqb_spec (0 + nf) 0); [lia|reflexivity].
      * cbn -[JS.DecimalDigit Z.add Z.mul Z.eqb Z.pow JS.scale10 JS.ExponentPart].
        rewrite Ed. reflexivity.
    + destruct c as [[] [] [] [] [] [] [] []]; try reflexivity.
      now destruct Hne.
Qed.

Lemma parseFloat_NaN_iff (text : string) :
  JS.isNaN (JS.parseFloat text) = negb (startsNumber text).
Proof.
  unfold JS.parseFloat, startsNumber. cbv zeta.
  destruct (JS.TrimStart text) as [|c r]; [exact (unsigned_literal_NaN false "")|].
  destruct c as [[] [] [] [] [] [] [] []]; cbv beta iota zeta;
    apply unsigned_literal_NaN.
Qed.

(** X22: the row [handleSubmit] builds holds [NaN] in a numeric column
    exactly when the entry's text, after leading white space and an optional
    sign, starts neither with a digit, nor with a dot followed by a digit,
    nor with "Infinity"; so a text that merely starts with a number
    ("12abc") does not give [NaN], and a missing entry, read as "null",
    does. *)
Theorem NaN_exactly_without_leading_number :
  (forall text, JS.isNaN (JS.parseFloat text) = negb (startsNumber text)) /\
  (forall st fd,
     PropertiesManager.propertyData st fd !! "price" = Some (JNum NaN)
     <-> startsNumber (ToString (FormData_get "price" fd)) = false) /\
  (forall st fd,
     (PlotsManager.plotData st fd !! "price_per_sqft" = Some (JNum NaN)
      <-> startsNumber (ToString (FormData_get "price_per_sqft" fd)) = false) /\
     (PlotsManager.plotData st fd !! "total_price" = Some (JNum NaN)
      <-> startsNumber (ToString (FormData_get "total_price" fd)) = false)).
Proof.
  assert (Hiff : forall text, JNum (JS.parseFloat text) = JNum NaN
                              <-> startsNumber text = false).
  { intros text. pose proof (parseFloat_NaN_iff text) as Hnan.
    destruct (startsNumber text); simpl in Hnan;
      destruct (JS.parseFloat text); try discriminate; split; congruence. }
  split; [exact parseFloat_NaN_iff|]. split.
  - intros st fd. rewrite <- Hiff.
    change (PropertiesManager.propertyData st fd !! "price")
      with (Some (JNum (JS.parseFloat (ToString (FormData_get "price" fd))))).
    split; congruence.
  - intros st fd. rewrite <- !Hiff. split.
    + change (PlotsManager.plotData st fd !! "price_per_sqft")
        with (Some (JNum (JS.parseFloat (ToString (FormData_get "price_per_sqft" fd))))).
      split; congruence.
    + change (PlotsManager.plotData st fd !! "total_price")
        with (Some (JNum (JS.parseFloat (ToString (FormData_get "total_price" fd))))).
      split; congruence.
Qed.

(** * Rows go stale *)

Lemma handleImageUpload_keeps_records {R : Type} `{Row R} (B : Backend R)
    (table bucket : string) (uploadPath : option R -> string)
    (st : State R) (files : list File) (w : World R) :
  records (ui (fst (handleImageUpload B table bucket uploadPath st files w)))
  = records (ui w).
Proof.
  destruct w as [tr st0].
  pose proof (handleImageUpload_run B table bucket uploadPath tr st0 st files) as Hrun.
  cbv zeta in Hrun.
  destruct (snd (settlements _ _ _ _)) as [urls|m]; [destruct (editing st) as [ed|]|].
  - destruct Hrun as [ok ->]. reflexivity.
  - now rewrite Hrun.
  - now rewrite Hrun.
Qed.

(** X23: an image-add is persisted to the store but not to the list on
    screen: the rows keep the images they had at the last fetch.  So when
    the form is cancelled and the same row is opened again with the pencil
    button, the draft starts from the old images, and submitting it sends
    an update whose [images] are the old ones, overwriting in the store
    whatever the image-add had persisted. *)
Theorem rows_are_stale_after_image_add :
  (forall B type w r files,
     let w3 := interact (propertiesReact B type) w
                 [EditClicked r; FilesChosen files; CancelClicked] in
     records (ui w3) = records (ui w) /\
     forall fd,
       exists row rest,
         trace (interact (propertiesReact B type) w3 [EditClicked r; Submitted fd])
         = trace w3 ++ Issued (Update (PropertiesManager.tableName type) row
                                 (PropertiesManager.id r)) :: rest
         /\ row !! "images" = Some (JArray (PropertiesManager.images r))) /\
  (forall B w r files,
     let w3 := interact (plotsReact B) w
                 [EditClicked r; FilesChosen files; CancelClicked] in
     records (ui w3) = records (ui w) /\
     forall fd,
       exists row rest,
         trace (interact (plotsReact B) w3 [EditClicked r; Submitted fd])
         = trace w3 ++ Issued (Update "plots" row (PlotsManager.id r)) :: rest
         /\ row !! "images" = Some (JArray (PlotsManager.images r))).
Proof.
  split.
  - intros B type [tr st0] r files w3. split.
    + subst w3. unfold interact. cbn [fold_left propertiesReact].
      unfold onCancelClick, setShowForm, setState. cbn [fst ui records].
      unfold PropertiesManager.handleImageUpload.
      rewrite handleImageUpload_keeps_records. reflexivity.
    + intros fd. destruct w3 as [tr3 st3].
      cbn [interact fold_left propertiesReact onEditClick].
      unfold PropertiesManager.handleSubmit.
      set (w4 := fst (_ {| trace := tr3; ui := st3 |})).
      destruct (submit_starts_with_write B (PropertiesManager.tableName type) w4 (ui w4)
                  (PropertiesManager.propertyData (ui w4) fd)) as [rest Hrest].
      eexists. exists rest. split; [exact Hrest|reflexivity].
  - intros B [tr st0] r files w3. split.
    + subst w3. unfold interact. cbn [fold_left plotsReact].
      unfold onCancelClick, setShowForm, setState. cbn [fst ui records].
      unfold PlotsManager.handleImageUpload.
      rewrite handleImageUpload_keeps_records. reflexivity.
    + intros fd. destruct w3 as [tr3 st3].
      cbn [interact fold_left plotsReact onEditClick].
      unfold PlotsManager.handleSubmit.
      set (w4 := fst (_ {| trace := tr3; ui := st3 |})).
      destruct (submit_starts_with_write B "plots" w4 (ui w4)
                  (PlotsManager.plotData (ui w4) fd)) as [rest Hrest].
      eexists. exists rest. split; [exact Hrest|reflexivity].
Qed.

(** * The form's own validation *)

Lemma TrimStart_head (c : ascii) (r : string) :
  ((45 <=? N_of_ascii c) && (N_of_ascii c <=? 57))%N = true ->
  JS.TrimStart (String c r) = String c r.
Proof.
  destruct c as [[] [] [] [] [] [] [] []]; intros Hc; try discriminate Hc;
    destruct r as [|c2 [|c3 r3]]; reflexivity.
Qed.

Lemma digit_range (c : ascii) (d : Z) :
  JS.DecimalDigit c = Some d -> ((45 <=? N_of_ascii c) && (N_of_ascii c <=? 57))%N = true.
Proof.
  destruct c as [[] [] [] [] [] [] [] []]; intros Hd; try discriminate Hd; reflexivity.
Qed.

Lemma DecimalDigits_none (c : ascii) (r : string) (acc n : Z) :
  JS.DecimalDigit c = None -> JS.DecimalDigits (String c r) acc n = (acc, n, String c r).
Proof. intros Hc. simpl. now rewrite Hc. Qed.

Lemma DecimalDigits_positive (s : string) :
  (0 < snd (fst (JS.DecimalDigits s 0 0)))%Z ->
  exists c r d, s = String c r /\ JS.DecimalDigit c = Some d.
Proof.
  destruct s as [|c r]; simpl; [lia|].
  destruct (JS.DecimalDigit c) as [d|] eqn:Ec; simpl; [eauto|lia].
Qed.

(** a mantissa starts with a digit, or with a dot and a digit *)
Lemma mantissa_start (s : string) :
  Form.afterMantissa s <> None ->
  match s with
  | String c r =>
      match JS.DecimalDigit c with
      | Some _ => true
      | None =>
          if Ascii.eqb c "."
          then match r with
               | String d _ => bool_decide (is_Some (JS.DecimalDigit d))
               | EmptyString => false
               end
          else false
      end
  | EmptyString => false
  end = true.
Proof.
  destruct s as [|c r]; [intros Hm; now destruct Hm|].
  destruct (JS.DecimalDigit c) as [d|] eqn:Ec; [reflexivity|].
  unfold Form.afterMantissa. rewrite (DecimalDigits_none c r 0 0 Ec).
  destruct (Ascii.eqb_spec c ".") as [->|Hne].
  - pose proof (DecimalDigits_positive r) as Hpos.
    destruct (JS.DecimalDigits r 0 0) as [[v nf] s2]. simpl in Hpos.
    destruct (Z.ltb_spec 0 nf) as [Hlt|_]; [|intros Hm; now destruct Hm].
    intros _. destruct (Hpos Hlt) as (d & r' & v' & -> & Hd).
    apply bool_decide_eq_true_2. rewrite Hd. eauto.
  - destruct c as [[] [] [] [] [] [] [] []]; intros Hm; now destruct Hm.
Qed.

Lemma valid_float_starts_number (s : string) :
  Form.validFloatingPointNumber s = true -> startsNumber s = true.
Proof.
  unfold Form.validFloatingPointNumber. intros Hv.
  assert (Hm : Form.afterMantissa (Form.dropMinus s) <> None)
    by (destruct (Form.afterMantissa (Form.dropMinus s)); [discriminate|discriminate Hv]).
  clear Hv. pose proof (mantissa_start _ Hm) as Hstart. clear Hm.
  destruct s as [|c r]; [discriminate Hstart|].
  destruct (Ascii.eqb_spec c "-") as [->|Hminus].
  - (* a minus sign, then the mantissa *)
    unfold startsNumber. rewrite TrimStart_head by reflexivity.
    cbn [Form.dropMinus] in Hstart. cbv beta iota zeta.
    destruct (String.prefix "Infinity" r); [reflexivity|exact Hstart].
  - assert (Hsame : Form.dropMinus (String c r) = String c r).
    { destruct c as [[] [] [] [] [] [] [] []]; try reflexivity. now destruct Hminus. }
    rewrite Hsame in Hstart.
    assert (Hrange : ((45 <=? N_of_ascii c) && (N_of_ascii c <=? 57))%N = true).
    { revert Hstart.
      destruct (JS.DecimalDigit c) as [d|] eqn:Ec; [intros _; exact (digit_range c d Ec)|].
      destruct (Ascii.eqb_spec c ".") as [->|]; [reflexivity|discriminate]. }
    unfold startsNumber. rewrite (TrimStart_head c r Hrange).
    assert (Hsign : match String c r with
                    | String "-" t => t
                    | String "+" t => t
                    | _ => String c r
                    end = String c r).
    { destruct c as [[] [] [] [] [] [] [] []]; try reflexivity;
        first [discriminate Hrange | now destruct Hminus]. }
    cbv zeta. rewrite Hsign.
    destruct (String.prefix "Infinity" (String c r)); [reflexivity|exact Hstart].
Qed.

Lemma valid_float_parses (s : string) :
  Form.validFloatingPointNumber s = true -> JS.parseFloat s <> NaN.
Proof.
  intros Hv Hnan. pose proof (parseFloat_NaN_iff s) as Hiff.
  rewrite (valid_float_starts_number s Hv), Hnan in Hiff. discriminate Hiff.
Qed.

(** a required numeric input passes validation only with a valid number *)
Lemma valid_form_number (further : FormData -> bool) (inputs : list Form.Input)
    (typed : FormData) (i : Form.Input) :
  Form.valid further inputs typed = true ->
  In i inputs -> Form.type i = Form.number -> Form.required i = true ->
  Form.validFloatingPointNumber (default "" (FormData_get (Form.name i) typed)) = true
  /\ Form.value typed i = default "" (FormData_get (Form.name i) typed).
Proof.
  unfold Form.valid. intros [Hall _]%andb_true_iff Hin Ht Hr.
  rewrite forallb_forall in Hall. specialize (Hall i Hin).
  unfold Form.valueMissing, Form.value, Form.sanitize in *. rewrite Ht, Hr in *.
  destruct (Form.validFloatingPointNumber _); [auto|discriminate Hall].
Qed.

Lemma submit_issues {R : Type} `{Row R} (B : Backend R) (table : string)
    (w : World R) (st : State R) (rowData : Payload) :
  exists evs,
    trace (fst ((setError None ;; submit B table st rowData) w)) = trace w ++ evs /\
    forall c, In (Issued c) evs -> c = submitCall table st rowData \/ c = refetch table.
Proof.
  destruct w as [tr st0].
  pose proof (cleared_submit_run B table tr st0 st rowData) as Hrun. cbv zeta in Hrun.
  destruct (submitError B table st rowData _) as [m|].
  - destruct Hrun as (Htr & _). eexists. split; [exact Htr|].
    intros c [[= <-]|[[=]|[]]]. now left.
  - destruct Hrun as ((ok & Htr) & _). eexists. split; [exact Htr|].
    intros c [[= <-]|[[=]|[[= <-]|[[=]|[]]]]]; [now left|now right].
Qed.

Lemma rows_of_submit {R : Type} `{Row R} (table : string) (st : State R)
    (rowData row : Payload) :
  In row (rowsOf (submitCall table st rowData)) -> row = rowData.
Proof.
  unfold submitCall. destruct (editing st); intros [<-|[]]; reflexivity.
Qed.

Lemma property_form_gate (B : Backend PropertiesManager.Property)
    (type : PropertiesManager.PropertyType) (st : State PropertiesManager.Property)
    (further : FormData -> bool) (typed : FormData) (w : World PropertiesManager.Property) :
  let price := default "" (FormData_get "price" typed) in
  (JS.parseFloat price = NaN \/ Form.validFloatingPointNumber price = false ->
   submitPropertyForm B type st further typed w = (w, Resolved tt)) /\
  (exists evs,
     trace (fst (submitPropertyForm B type st further typed w)) = trace w ++ evs /\
     forall c, In (Issued c) evs -> ~ carriesNaN "price" c).
Proof.
  intros price.
  set (priceInput := {| Form.name := "price"; Form.type := Form.number;
                        Form.required := true |}).
  assert (Hin : In priceInput propertyInputs) by (simpl; auto 10).
  unfold submitPropertyForm, Form.requestSubmit.
  destruct (Form.valid further propertyInputs typed) eqn:Hv.
  - destruct (valid_form_number further propertyInputs typed priceInput Hv Hin eq_refl eq_refl)
      as [Hvalid Hval].
    change (Form.validFloatingPointNumber price = true) in Hvalid.
    change (Form.value typed priceInput = price) in Hval.
    pose proof (valid_float_parses price Hvalid) as Hparse.
    split; [intros [Hnan|Hinv]; [now destruct Hparse|congruence]|].
    destruct (submit_issues B (PropertiesManager.tableName type) w st
                (PropertiesManager.propertyData st (Form.entries propertyInputs typed)))
      as (evs & Htr & Hev).
    exists evs. split; [exact Htr|].
    intros c Hc (row & Hrow & Hnan). destruct (Hev c Hc) as [-> | ->]; [|destruct Hrow].
    apply rows_of_submit in Hrow. subst row.
    change (Some (JNum (JS.parseFloat (Form.value typed priceInput))) = Some (JNum NaN))
      in Hnan.
    rewrite Hval in Hnan. injection Hnan as Hnan. exact (Hparse Hnan).
  - split; [reflexivity|]. exists []. split; [symmetry; apply app_nil_r|intros c []].
Qed.

Lemma plot_form_gate (B : Backend PlotsManager.Plot) (st : State PlotsManager.Plot)
    (further : FormData -> bool) (typed : FormData) (w : World PlotsManager.Plot) :
  let notANumber name :=
    JS.parseFloat (default "" (FormData_get name typed)) = NaN
    \/ Form.validFloatingPointNumber (default "" (FormData_get name typed)) = false in
  (notANumber "price_per_sqft" \/ notANumber "total_price" ->
   submitPlotForm B st further typed w = (w, Resolved tt)) /\
  (exists evs,
     trace (fst (submitPlotForm B st further typed w)) = trace w ++ evs /\
     forall c, In (Issued c) evs ->
       ~ carriesNaN "price_per_sqft" c /\ ~ carriesNaN "total_price" c).
Proof.
  intros notANumber. subst notANumber. cbv beta.
  set (rate := default "" (FormData_get "price_per_sqft" typed)).
  set (total := default "" (FormData_get "total_price" typed)).
  set (rateInput := {| Form.name := "price_per_sqft"; Form.type := Form.number;
                       Form.required := true |}).
  set (totalInput := {| Form.name := "total_price"; Form.type := Form.number;
                        Form.required := true |}).
  assert (Hin1 : In rateInput plotInputs) by (simpl; auto 10).
  assert (Hin2 : In totalInput plotInputs) by (simpl; auto 10).
  unfold submitPlotForm, Form.requestSubmit.
  destruct (Form.valid further plotInputs typed) eqn:Hv.
  - destruct (valid_form_number further plotInputs typed rateInput Hv Hin1 eq_refl eq_refl)
      as [Hvalid1 Hval1].
    destruct (valid_form_number further plotInputs typed totalInput Hv Hin2 eq_refl eq_refl)
      as [Hvalid2 Hval2].
    change (Form.validFloatingPointNumber rate = true) in Hvalid1.
    change (Form.value typed rateInput = rate) in Hval1.
    change (Form.validFloatingPointNumber total = true) in Hvalid2.
    change (Form.value typed totalInput = total) in Hval2.
    pose proof (valid_float_parses rate Hvalid1) as Hparse1.
    pose proof (valid_float_parses total Hvalid2) as Hparse2.
    split.
    { intros [[Hnan|Hinv]|[Hnan|Hinv]];
        [now destruct Hparse1|congruence|now destruct Hparse2|congruence]. }
    destruct (submit_issues B "plots" w st
                (PlotsManager.plotData st (Form.entries plotInputs typed)))
      as (evs & Htr & Hev).
    exists evs. split; [exact Htr|].
    intros c Hc. split; intros (row & Hrow & Hnan);
      (destruct (Hev c Hc) as [-> | ->]; [|destruct Hrow]);
      apply rows_of_submit in Hrow; subst row.
    + change (Some (JNum (JS.parseFloat (Form.value typed rateInput))) = Some (JNum NaN))
        in Hnan.
      rewrite Hval1 in Hnan. injection Hnan as Hnan. exact (Hparse1 Hnan).
    + change (Some (JNum (JS.parseFloat (Form.value typed totalInput))) = Some (JNum NaN))
        in Hnan.
      rewrite Hval2 in Hnan. injection Hnan as Hnan. exact (Hparse2 Hnan).
  - split; [reflexivity|]. exists []. split; [symmetry; apply app_nil_r|].
    intros c [].
Qed.

(** C1: a submission in which a numeric field ([price]; [price_per_sqft],
    [total_price]) does not parse as a number is rejected locally, before any
    backend call.  The form in front of [handleSubmit] has these fields as
    required number inputs and is validated by the browser: when the text in
    one of them makes [parseFloat] give [NaN], or is not a valid
    floating-point number at all, [handleSubmit] is not called, so nothing is
    issued and the screen state stays as it was.  Create or edit, plots or
    properties, whatever the rest of the form holds and whatever else the
    browser checks ([further]): no call issued by a submission carries [NaN]
    in a numeric column. *)
Theorem non_numeric_submission_is_rejected_locally
    (B : Backend PropertiesManager.Property) (type : PropertiesManager.PropertyType)
    (BP : Backend PlotsManager.Plot)
    (further : FormData -> bool) (typed : FormData)
    (st : State PropertiesManager.Property) (w : World PropertiesManager.Property)
    (stP : State PlotsManager.Plot) (wP : World PlotsManager.Plot) :
  let notANumber name :=
    JS.parseFloat (default "" (FormData_get name typed)) = NaN
    \/ Form.validFloatingPointNumber (default "" (FormData_get name typed)) = false in
  (notANumber "price" ->
   submitPropertyForm B type st further typed w = (w, Resolved tt)) /\
  (exists evs,
     trace (fst (submitPropertyForm B type st further typed w)) = trace w ++ evs /\
     forall c, In (Issued c) evs -> ~ carriesNaN "price" c) /\
  (notANumber "price_per_sqft" \/ notANumber "total_price" ->
   submitPlotForm BP stP further typed wP = (wP, Resolved tt)) /\
  (exists evs,
     trace (fst (submitPlotForm BP stP further typed wP)) = trace wP ++ evs /\
     forall c, In (Issued c) evs ->
       ~ carriesNaN "price_per_sqft" c /\ ~ carriesNaN "total_price" c).
Proof.
  intros notANumber.
  destruct (property_form_gate B type st further typed w) as [Hblock Hsent].
  destruct (plot_form_gate BP stP further typed wP) as [HblockP HsentP].
  split; [exact Hblock|]. split; [exact Hsent|]. split; [exact HblockP|exact HsentP].
Qed.

Lemma non_numeric_submission_is_rejected_locally_witness :
  let st := Samples.blank [] (Some Samples.R1) in
  let stP := Samples.blank [] None in
  let typed := [("builder_name", "Acme"); ("project", "Skyview"); ("location", "Lakeview");
                ("size", "1200"); ("price", "abc");
                ("price_per_sqft", "900"); ("total_price", "12 lakh")] in
  JS.parseFloat "abc" = NaN /\
  JS.parseFloat "12 lakh" = Finite (inject_Z 12) /\
  Form.validFloatingPointNumber "12 lakh" = false /\
  submitPropertyForm (Samples.accepting []) PropertiesManager.resale st (fun _ => true) typed
    (Samples.start st) = (Samples.start st, Resolved tt) /\
  submitPlotForm (Samples.accepting []) stP (fun _ => true) typed (Samples.start stP)
  = (Samples.start stP, Resolved tt).
Proof.
  intros st stP typed.
  assert (Hnan : JS.parseFloat "abc" = NaN) by reflexivity.
  assert (Hinv : Form.validFloatingPointNumber "12 lakh" = false) by reflexivity.
  split; [exact Hnan|]. split; [reflexivity|]. split; [exact Hinv|].
  destruct (non_numeric_submission_is_rejected_locally
              (Samples.accepting []) PropertiesManager.resale (Samples.accepting [])
              (fun _ => true) typed st (Samples.start st) stP (Samples.start stP))
    as (Hblock & _ & HblockP & _).
  split.
  - apply Hblock. left. exact Hnan.
  - apply HblockP. right. right. exact Hinv.
Defined.

(** The form does let numbers through: with a valid price the handler runs,
    the insert carries the parsed number and the list is fetched again. *)
Example numeric_submission_goes_through :
  let st := Samples.blank [] None in
  let typed := Samples.newPropertyForm "1000000" in
  let row := PropertiesManager.propertyData st typed in
  let ins := Insert "resale_properties" [row] in
  Form.entries propertyInputs typed = typed /\
  row !! "price" = Some (JNum (Finite (inject_Z 1000000))) /\
  trace (fst (submitPropertyForm (Samples.accepting []) PropertiesManager.resale st
                (fun _ => true) typed (Samples.start st)))
  = [Issued ins; Settled ins true;
     Issued (Select "resale_properties" "created_at" false);
     Settled (Select "resale_properties" "created_at" false) true].
Proof.
  intros st typed row ins. split; [reflexivity|]. split; reflexivity.
Qed.
